(** * The IELTS speaking-practice client: tool-call handling, audio tray, greeting.

    A shallow embedding of the React components of the repository
    ([components/altair/Altair.tsx] and its two earlier revisions,
    [components/audio-control-tray/AudioControlTray.tsx], the chat layout) with
    the properties the design document states about them. *)

From Stdlib Require Import ZArith Lia Bool List Ascii String Floats.
From stdpp Require Import base option list strings gmap.
Import ListNotations.

Local Open Scope Z_scope.

(** ** JavaScript values *)

Module Js.

(** The values a JSON payload can carry, plus [undefined]. A number is an IEEE
    binary64 float, an object is a finite map from property names. *)
#[warnings="-register-all"]
Inductive Value : Type :=
| Undefined
| Null
| Boolean (b : bool)
| Number (x : float)
| Str (s : string)
| Array (xs : list Value)
| Object (fields : gmap string Value).

(** The only exception the modelled code can raise: a property read on
    [undefined], or a call of something that is not a function. *)
Inductive Error : Type :=
| TypeError (what : string).

(** [o.k] on an object: a missing property reads as [undefined]. *)
Definition get (o : gmap string Value) (k : string) : Value :=
  default Undefined (o !! k).

(** ToBoolean. *)
Definition truthy (v : Value) : bool :=
  match v with
  | Undefined | Null => false
  | Boolean b => b
  | Number x => negb (PrimFloat.eqb x 0 || PrimFloat.is_nan x)
  | Str s => negb (String.eqb s "")
  | Array _ | Object _ => true
  end.

(** [String.prototype.toUpperCase] on the bytes of the string: the letters
    [a]-[z] are mapped to [A]-[Z], every other byte stays (letters outside
    ASCII are not case-mapped here). *)
Definition upper_ascii (c : ascii) : ascii :=
  let n := nat_of_ascii c in
  if (97 <=? n)%nat && (n <=? 122)%nat then ascii_of_nat (n - 32) else c.

Fixpoint toUpperCase (s : string) : string :=
  match s with
  | EmptyString => EmptyString
  | String.String c r => String.String (upper_ascii c) (toUpperCase r)
  end.

(** [Math.max(a, b)] and [Math.min(a, b)] on two numbers: NaN if either is,
    else the larger (smaller) one; which of two equal arguments is returned
    matters only for the sign of a zero. *)
Definition Math_max (a b : float) : float :=
  if PrimFloat.is_nan a || PrimFloat.is_nan b then PrimFloat.nan
  else if PrimFloat.ltb a b then b else a.

Definition Math_min (a b : float) : float :=
  if PrimFloat.is_nan a || PrimFloat.is_nan b then PrimFloat.nan
  else if PrimFloat.ltb b a then b else a.

End Js.

(** ** Effects of an event handler

    A handler writes console lines, calls React state setters and arms timers;
    a [TypeError] aborts it, and what it did before stays done. *)

Module Handler.

(** One entry of [functionResponses]. *)
Record FunctionResponse : Type := {
  response : Js.Value;
  fr_id : option string;
  fr_name : option string;
}.

(** What a timer callback does with the client. *)
Inductive ClientCall : Type :=
| SendToolResponse (functionResponses : option (list FunctionResponse)).

(** [setTimeout(callback, delay)], the delay in milliseconds. *)
Record Timer : Type := {
  delay : Z;
  callback : list ClientCall;
}.

Record Effects : Type := {
  console : list (list Js.Value);   (* console.log calls, oldest first *)
  jsonString : list Js.Value;       (* setJSONString calls, oldest first *)
  timers : list Timer;              (* setTimeout calls, oldest first *)
}.

Definition no_effects : Effects :=
  {| console := []; jsonString := []; timers := [] |}.

Inductive Completion (A : Type) : Type :=
| Normal (a : A)
| Throw (e : Js.Error).
Arguments Normal {A} a.
Arguments Throw {A} e.

Definition M (A : Type) : Type := Effects -> Effects * Completion A.

Definition ret {A} (a : A) : M A := fun w => (w, Normal a).

Definition bind {A B} (m : M A) (k : A -> M B) : M B :=
  fun w =>
    match m w with
    | (w', Normal a) => k a w'
    | (w', Throw e) => (w', Throw e)
    end.

Definition throw {A} (e : Js.Error) : M A := fun w => (w, Throw e).

Definition console_log (line : list Js.Value) : M unit :=
  fun w => ({| console := console w ++ [line];
               jsonString := jsonString w;
               timers := timers w |}, Normal tt).

Definition setJSONString (v : Js.Value) : M unit :=
  fun w => ({| console := console w;
               jsonString := jsonString w ++ [v];
               timers := timers w |}, Normal tt).

Definition setTimeout (cb : list ClientCall) (ms : Z) : M unit :=
  fun w => ({| console := console w;
               jsonString := jsonString w;
               timers := timers w ++ [{| delay := ms; callback := cb |}] |},
            Normal tt).

#[global] Instance M_ret : MRet M := @ret.
#[global] Instance M_bind : MBind M := fun A B k m => bind m k.

(** [xs.forEach(f)] *)
Fixpoint forEach {A} (xs : list A) (f : A -> M unit) : M unit :=
  match xs with
  | [] => ret tt
  | x :: rest => bind (f x) (fun _ => forEach rest f)
  end.

(** Running a handler from a clean slate. *)
Definition run {A} (m : M A) : Effects * Completion A := m no_effects.

Definition completes {A} (m : M A) : Prop :=
  exists a, snd (run m) = Normal a.

End Handler.

Import Handler.


(** ** The tool-call handlers *)

(** The message the session client hands to a ["toolcall"] listener
    ([LiveServerToolCall] and [FunctionCall] of the client library: every field
    is optional). *)
Record FunctionCall : Type := {
  id : option string;
  name : option string;
  args : option (gmap string Js.Value);
}.

Record LiveServerToolCall : Type := {
  functionCalls : option (list FunctionCall);
}.

Module ToolCall.

(** An optional string as a JavaScript value. *)
Definition optional (s : option string) : Js.Value :=
  match s with
  | Some x => Js.Str x
  | None => Js.Undefined
  end.

(** [args.k] where [args] is [fc.args as any]: reading a property of
    [undefined] is a [TypeError]. *)
Definition prop (args : option (gmap string Js.Value)) (k : string) : M Js.Value :=
  match args with
  | Some o => mret (Js.get o k)
  | None => throw (Js.TypeError "Cannot read properties of undefined")
  end.

(** [v?.toUpperCase()]: [undefined] when [v] is nullish, the upper-cased
    string when [v] is a string; any other value has no [toUpperCase], and
    calling it is a [TypeError]. *)
Definition optUpperCase (v : Js.Value) : M (option string) :=
  match v with
  | Js.Undefined | Js.Null => mret None
  | Js.Str s => mret (Some (Js.toUpperCase s))
  | _ => throw (Js.TypeError "toUpperCase is not a function")
  end.

(** [${x}] for the result of [optUpperCase]. *)
Definition interpolate (x : option string) : string :=
  default "undefined" x.

(** [{ response: { output: { success: true } }, id: fc.id, name: fc.name }] *)
Definition success : Js.Value :=
  Js.Object {[ "output" := Js.Object {[ "success" := Js.Boolean true ]} ]}.

Definition successResponse (fc : FunctionCall) : FunctionResponse :=
  {| response := success; fr_id := id fc; fr_name := name fc |}.

(** The timer's callback:
    [client.sendToolResponse({ functionResponses: toolCall.functionCalls?.map(...) })].
    Nothing changes [toolCall] between arming and firing, so the list is the
    one the handler saw. *)
Definition respond (toolCall : LiveServerToolCall) : list ClientCall :=
  [SendToolResponse (fmap (M := option) (fmap (M := list) successResponse) (functionCalls toolCall))].

Definition name_is (fc : FunctionCall) (n : string) : bool :=
  match name fc with
  | Some x => String.eqb x n
  | None => false
  end.

End ToolCall.

Import ToolCall.

(** [declaration.name], the chart tool. *)
Definition declaration_name : string := "render_altair".

(** The hook of [components/altair/Altair.tsx]: it logs the conversation tools and answers every call. *)
Module useAltairAI.

Definition logCall (fc : FunctionCall) : M unit :=
  let args := args fc in
  if name_is fc "log_ai_speech" then
    type ← prop args "type" ≫= optUpperCase;
    speech ← prop args "speech";
    console_log [Js.Str ("🤖 AI SPEECH [" +:+ interpolate type +:+ "]:"); speech]
  else if name_is fc "log_question_start" then
    question ← prop args "question";
    console_log [Js.Str "📝 QUESTION START:"; question];;
    part ← prop args "part";
    if Js.truthy part then
      part ← prop args "part";
      console_log [Js.Str "   Part:"; part]
    else mret tt
  else if name_is fc "log_question_end" then
    question ← prop args "question";
    console_log [Js.Str "✅ QUESTION END:"; question]
  else if name_is fc "log_ai_response" then
    type ← prop args "type" ≫= optUpperCase;
    message ← prop args "message";
    console_log [Js.Str ("💬 AI " +:+ interpolate type +:+ ":"); message]
  else mret tt.

Definition onToolCall (toolCall : LiveServerToolCall) : M unit :=
  match functionCalls toolCall with
  | None => mret tt
  | Some calls =>
    console_log [Js.Str "[ALTAIR] Received tool calls:";
                 Js.Array (map (fun fc => optional (name fc)) calls)];;
    forEach calls logCall;;
    if negb (length calls =? 0)%nat then setTimeout (respond toolCall) 200
    else mret tt
  end.

End useAltairAI.

(** The component revision with the greeting ([AltairComponent], second revision): it also handles [render_altair]. *)
Module AltairComponent2.

Definition logCall (fc : FunctionCall) : M unit :=
  let args := args fc in
  if name_is fc "log_ai_speech" then
    type ← prop args "type" ≫= optUpperCase;
    speech ← prop args "speech";
    console_log [Js.Str ("ðŸ¤– AI SPEECH [" +:+ interpolate type +:+ "]:"); speech]
  else if name_is fc "log_question_start" then
    question ← prop args "question";
    console_log [Js.Str "ðŸ“ QUESTION START:"; question];;
    part ← prop args "part";
    if Js.truthy part then
      part ← prop args "part";
      console_log [Js.Str "   Part:"; part]
    else mret tt
  else if name_is fc "log_question_end" then
    question ← prop args "question";
    console_log [Js.Str "âœ… QUESTION END:"; question]
  else if name_is fc "log_ai_response" then
    type ← prop args "type" ≫= optUpperCase;
    message ← prop args "message";
    console_log [Js.Str ("ðŸ’¬ AI " +:+ interpolate type +:+ ":"); message]
  else mret tt.

Definition onToolCall (toolCall : LiveServerToolCall) : M unit :=
  match functionCalls toolCall with
  | None => mret tt
  | Some calls =>
    forEach calls logCall;;
    match List.find (fun fc => name_is fc declaration_name) calls with
    | Some fc => str ← prop (args fc) "json_graph"; setJSONString str
    | None => mret tt
    end;;
    if negb (length calls =? 0)%nat then setTimeout (respond toolCall) 200
    else mret tt
  end.

End AltairComponent2.

(** The first component revision ([AltairComponent] without [log_ai_speech]). *)
Module AltairComponent3.

Definition logCall (fc : FunctionCall) : M unit :=
  let args := args fc in
  if name_is fc "log_question_start" then
    question ← prop args "question";
    console_log [Js.Str "📝 QUESTION START:"; question];;
    part ← prop args "part";
    if Js.truthy part then
      part ← prop args "part";
      console_log [Js.Str "   Part:"; part]
    else mret tt
  else if name_is fc "log_question_end" then
    question ← prop args "question";
    console_log [Js.Str "✅ QUESTION END:"; question]
  else if name_is fc "log_ai_response" then
    type ← prop args "type" ≫= optUpperCase;
    message ← prop args "message";
    console_log [Js.Str ("💬 AI " +:+ interpolate type +:+ ":"); message]
  else mret tt.

Definition onToolCall (toolCall : LiveServerToolCall) : M unit :=
  match functionCalls toolCall with
  | None => mret tt
  | Some calls =>
    forEach calls logCall;;
    match List.find (fun fc => name_is fc declaration_name) calls with
    | Some fc => str ← prop (args fc) "json_graph"; setJSONString str
    | None => mret tt
    end;;
    if negb (length calls =? 0)%nat then setTimeout (respond toolCall) 200
    else mret tt
  end.

End AltairComponent3.

(** *** The greeting effects *)

Module Greeting.

Inductive Action : Type :=
| Log (line : string)
| ClientSend (text : string).   (* client.send([{ text }]) *)

(** [await new Promise(resolve => setTimeout(resolve, ms))] followed by the
    rest of the async function, which reads [client.session] when it resumes. *)
Record Sleep : Type := {
  ms : Z;
  resume : bool -> list Action;   (* argument: is client.session set *)
}.

(** What one run of an effect does at once, the sleeps it starts and the
    client events it subscribes to. *)
Record Run : Type := {
  now : list Action;
  sleeps : list Sleep;
  subscriptions : list string;
}.

Definition nothing : Run := {| now := []; sleeps := []; subscriptions := [] |}.

(** Step 2 of the hook: [client.on("toolcall", onToolCall)]. *)
Definition useAltairAI_handlers (isInitialized client : bool) : Run :=
  if negb isInitialized || negb client then nothing
  else {| now := [Log "[ALTAIR] Registering tool call handler"];
          sleeps := [];
          subscriptions := ["toolcall"] |}.

(** Step 3 of the hook ([Altair.tsx]). *)
Definition useAltairAI_sendGreeting (connected isInitialized : bool) : Run :=
  if negb connected || negb isInitialized then nothing
  else
    {| now := [Log "[ALTAIR] Client connected, waiting to send greeting..."];
       sleeps :=
         [{| ms := 2000;
             resume := fun session =>
               if session then
                 [Log "[ALTAIR] Sending initial greeting to start AI";
                  ClientSend "Hello, I'm ready to begin the IELTS speaking test."]
               else [Log "[ALTAIR] Session not ready yet"] |}];
       subscriptions := [] |}.

(** The hook's effects after a render, in order. *)
Definition useAltairAI (connected isInitialized client : bool) : list Run :=
  [useAltairAI_handlers isInitialized client;
   useAltairAI_sendGreeting connected isInitialized].

(** [startGreeting] of the component revision with the greeting: it runs on
    mount, whatever the connection state. *)
Definition AltairComponent_startGreeting : Run :=
  {| now := [];
     sleeps :=
       [{| ms := 1500;
           resume := fun session =>
             if session then
               [ClientSend "Hello, I'm ready to begin the IELTS speaking test. Please start speaking."]
             else [] |}];
     subscriptions := [] |}.

(** The greeting sends a run leads to, with the time each waits first. *)
Definition immediate_sends (r : Run) : list string :=
  omap (fun a => match a with ClientSend t => Some t | Log _ => None end) (now r).

Definition delayed_sends (session : bool) (r : Run) : list (Z * string) :=
  flat_map (fun sl =>
    omap (fun a => match a with ClientSend t => Some (ms sl, t) | Log _ => None end)
         (resume sl session)) (sleeps r).

End Greeting.

(** ** The declared tools and their parameter schemas *)

Module Schema.

Inductive Kind : Type := STRING | OBJECT.

Record FunctionDeclaration : Type := {
  decl_name : string;
  properties : list (string * Kind);
  required : list string;
}.

Definition declaration : FunctionDeclaration :=
  {| decl_name := "render_altair";
     properties := [("json_graph", STRING)];
     required := ["json_graph"] |}.

(** [conversationTools] of [Altair.tsx]. *)
Definition conversationTools : list FunctionDeclaration :=
  [ {| decl_name := "log_ai_speech";
       properties := [("speech", STRING); ("type", STRING)];
       required := ["speech"; "type"] |};
    {| decl_name := "log_question_start";
       properties := [("question", STRING); ("part", STRING)];
       required := ["question"] |};
    {| decl_name := "log_question_end";
       properties := [("question", STRING)];
       required := ["question"] |};
    {| decl_name := "log_ai_response";
       properties := [("message", STRING); ("type", STRING)];
       required := ["message"; "type"] |} ].

(** [functionDeclarations: [declaration, ...conversationTools]] *)
Definition functionDeclarations : list FunctionDeclaration :=
  declaration :: conversationTools.

Definition lookup (n : string) : option FunctionDeclaration :=
  List.find (fun d => String.eqb (decl_name d) n) functionDeclarations.

Definition has_kind (k : Kind) (v : Js.Value) : bool :=
  match k, v with
  | STRING, Js.Str _ => true
  | OBJECT, Js.Object _ => true
  | _, _ => false
  end.

(** What it means for an argument object to match a declaration: every
    required property is there, and every declared property that is there
    has the declared type. The handlers never compute this; it is the
    yardstick the design document measures them by. *)
Definition conforms (d : FunctionDeclaration) (a : option (gmap string Js.Value)) : bool :=
  match a with
  | None => false
  | Some o =>
      forallb (fun k => bool_decide (is_Some (o !! k))) (required d)
      && forallb (fun '(k, kind) =>
                    match o !! k with
                    | Some v => has_kind kind v
                    | None => true
                    end) (properties d)
  end.

(** A call matches its declaration; a call of an undeclared tool matches nothing. *)
Definition valid (fc : FunctionCall) : bool :=
  match name fc with
  | Some n =>
      match lookup n with
      | Some d => conforms d (args fc)
      | None => false
      end
  | None => false
  end.

End Schema.

(** ** The audio control tray *)

(** Modelled from the spec: the recorder class ([lib/audio-recorder]) is not
    among the sources. Section 4.1 of the design document gives its contract:
    [start()] acquires the capture device and begins a periodic tick that
    emits a data event with the encoded frame plus a volume event; [stop()]
    releases the device and is idempotent; when the device is unavailable the
    engine stays stopped. [on] and [off] are the event emitter's: [off]
    detaches every registration of the listener. *)
Module AudioRecorder.

Inductive Event : Type := data | volume.

(** The two functions the tray registers. *)
Inductive Listener : Type := onData | setInVolume.

#[global] Instance Event_eq_dec : EqDecision Event.
Proof. solve_decision. Defined.
#[global] Instance Listener_eq_dec : EqDecision Listener.
Proof. solve_decision. Defined.

Record t : Type := {
  recording : bool;                       (* the capture device is held *)
  listeners : list (Event * Listener);
}.

Definition new : t := {| recording := false; listeners := [] |}.

Definition on (e : Event) (l : Listener) (r : t) : t :=
  {| recording := recording r; listeners := listeners r ++ [(e, l)] |}.

Definition off (e : Event) (l : Listener) (r : t) : t :=
  {| recording := recording r;
     listeners := filter (fun x => x <> (e, l)) (listeners r) |}.

Definition start (deviceAvailable : bool) (r : t) : t :=
  {| recording := recording r || deviceAvailable; listeners := listeners r |}.

Definition stop (r : t) : t :=
  {| recording := false; listeners := listeners r |}.

(** What one capture tick delivers: the listeners called, each with the
    event it was registered for; the data event first. *)
Definition tick (r : t) : list (Event * Listener) :=
  if recording r then
    filter (fun x => x.1 = data) (listeners r)
    ++ filter (fun x => x.1 = volume) (listeners r)
  else [].

End AudioRecorder.

Module AudioControlTray.

(** One element of the array passed to [client.sendRealtimeInput]. *)
Record MediaChunk : Type := {
  mimeType : string;
  chunk_data : string;
}.

Record State : Type := {
  connected : bool;                        (* from the session context *)
  muted : bool;
  inVolume : float;
  deviceAvailable : bool;                  (* the microphone can be acquired *)
  audioRecorder : AudioRecorder.t;
  realtimeInput : list (list MediaChunk);  (* client.sendRealtimeInput calls *)
}.

Definition with_recorder (s : State) (r : AudioRecorder.t) : State :=
  {| connected := connected s; muted := muted s; inVolume := inVolume s;
     deviceAvailable := deviceAvailable s; audioRecorder := r;
     realtimeInput := realtimeInput s |}.

(** The body of the effect on [connected, client, muted, audioRecorder]. *)
Definition effect (s : State) : State :=
  if connected s && negb (muted s) then
    with_recorder s
      (AudioRecorder.start (deviceAvailable s)
         (AudioRecorder.on AudioRecorder.volume AudioRecorder.setInVolume
            (AudioRecorder.on AudioRecorder.data AudioRecorder.onData
               (audioRecorder s))))
  else with_recorder s (AudioRecorder.stop (audioRecorder s)).

(** What the effect returned, run before its next run. *)
Definition cleanup (s : State) : State :=
  with_recorder s
    (AudioRecorder.off AudioRecorder.volume AudioRecorder.setInVolume
       (AudioRecorder.off AudioRecorder.data AudioRecorder.onData
          (audioRecorder s))).

(** The effect run that follows a render whose dependencies changed: the old
    effect is cleaned up and the effect runs again. *)
Definition commit (s : State) : State := effect (cleanup s).

(** [onData]: the chunk goes to the client. *)
Definition onData (base64 : string) (s : State) : State :=
  {| connected := connected s; muted := muted s; inVolume := inVolume s;
     deviceAvailable := deviceAvailable s; audioRecorder := audioRecorder s;
     realtimeInput := realtimeInput s ++
       [[{| mimeType := "audio/pcm;rate=16000"; chunk_data := base64 |}]] |}.

Definition setInVolume (v : float) (s : State) : State :=
  {| connected := connected s; muted := muted s; inVolume := v;
     deviceAvailable := deviceAvailable s; audioRecorder := audioRecorder s;
     realtimeInput := realtimeInput s |}.

Definition deliver (base64 : string) (v : float)
    (s : State) (x : AudioRecorder.Event * AudioRecorder.Listener) : State :=
  match x.2 with
  | AudioRecorder.onData => onData base64 s
  | AudioRecorder.setInVolume => setInVolume v s
  end.

Inductive Event : Type :=
| Connection (c : bool)       (* the context's [connected] becomes [c] *)
| ClickMic                    (* the microphone button *)
| Device (available : bool)   (* the microphone comes or goes *)
| Tick (base64 : string) (v : float).   (* one capture tick of the recorder *)

(** An event together with the effect run it leads to: the tray as it stands
    once React has run the effect. [TrayEffects] below takes the render and
    the effect run apart. *)
Definition step (s : State) (e : Event) : State :=
  match e with
  | Connection c =>
      if Bool.eqb c (connected s) then s
      else commit
        {| connected := c; muted := muted s; inVolume := inVolume s;
           deviceAvailable := deviceAvailable s; audioRecorder := audioRecorder s;
           realtimeInput := realtimeInput s |}
  | ClickMic =>
      (* the button is disabled while not connected *)
      if connected s then
        commit
          {| connected := connected s; muted := negb (muted s);
             inVolume := inVolume s; deviceAvailable := deviceAvailable s;
             audioRecorder := audioRecorder s; realtimeInput := realtimeInput s |}
      else s
  | Device a =>
      {| connected := connected s; muted := muted s; inVolume := inVolume s;
         deviceAvailable := a; audioRecorder := audioRecorder s;
         realtimeInput := realtimeInput s |}
  | Tick base64 v =>
      fold_left (deliver base64 v) (AudioRecorder.tick (audioRecorder s)) s
  end.

(** The first render: [useState(0)], [useState(false)], a new recorder, then
    the effect. *)
Definition mount (c device : bool) : State :=
  effect {| connected := c; muted := false; inVolume := 0%float;
            deviceAvailable := device; audioRecorder := AudioRecorder.new;
            realtimeInput := [] |}.

Definition run (s : State) (es : list Event) : State := fold_left step es s.

Inductive reachable : State -> Prop :=
| reach_mount c device : reachable (mount c device)
| reach_step s e : reachable s -> reachable (step s e).

(** [width: `${Math.min(Math.max(volume * 100, 5), 100)}%`] — the same
    expression in the tray and in the chat layout. *)
Definition volumeWidth (volume : float) : float :=
  Js.Math_min (Js.Math_max (volume * 100) 5) 100.

End AudioControlTray.

(** ** The playback engine *)

(** Modelled from the spec: the playback engine is not among the sources.
    Section 4.2 of the design document: [enqueue(frame)] appends to a bounded
    buffer, a playback clock drains it one frame per tick in arrival order,
    an empty buffer at a tick yields silence and an underrun warning, and an
    Interrupted signal clears the queue at once. A full buffer is taken to
    overwrite its oldest frame, as a ring does. *)
Module AudioPlaybackEngine.

Record AudioFrame : Type := {
  sequence : nat;
  samples : list Z;
}.

Record t : Type := {
  capacity : nat;
  queue : list AudioFrame;
}.

Inductive Output : Type :=
| Played (f : AudioFrame)
| Silence.   (* with a BufferUnderrunWarning *)

Definition enqueue (f : AudioFrame) (p : t) : t :=
  {| capacity := capacity p;
     queue := if (length (queue p) <? capacity p)%nat then queue p ++ [f]
              else tl (queue p ++ [f]) |}.

Definition tick (p : t) : Output * t :=
  match queue p with
  | f :: rest => (Played f, {| capacity := capacity p; queue := rest |})
  | [] => (Silence, p)
  end.

Definition interrupted (p : t) : t :=
  {| capacity := capacity p; queue := [] |}.

Inductive Event : Type :=
| Enqueue (f : AudioFrame)
| PlaybackTick
| Interrupted.

Definition step (p : t) (e : Event) : list Output * t :=
  match e with
  | Enqueue f => ([], enqueue f p)
  | PlaybackTick => let '(o, p') := tick p in ([o], p')
  | Interrupted => ([], interrupted p)
  end.

Fixpoint run (p : t) (es : list Event) : list Output * t :=
  match es with
  | [] => ([], p)
  | e :: rest =>
      let '(o, p') := step p e in
      let '(os, p'') := run p' rest in
      (o ++ os, p'')
  end.

Definition enqueued (es : list Event) : list AudioFrame :=
  omap (fun e => match e with Enqueue f => Some f | _ => None end) es.

Definition played (os : list Output) : list AudioFrame :=
  omap (fun o => match o with Played f => Some f | Silence => None end) os.

End AudioPlaybackEngine.

(** ** Observing a run *)

Definition call (i n : string) (a : gmap string Js.Value) : FunctionCall :=
  {| id := Some i; name := Some n; args := Some a |}.

Definition batch (calls : list FunctionCall) : LiveServerToolCall :=
  {| functionCalls := Some calls |}.

(** The scenario of the design document: one [log_question_start] call. *)
Definition hometown : LiveServerToolCall :=
  batch [call "a" "log_question_start"
           {[ "question" := Js.Str "Tell me about your hometown" ]}].

(** [r.response.output.success] *)
Definition successFlag (r : FunctionResponse) : Js.Value :=
  match response r with
  | Js.Object o =>
      match Js.get o "output" with
      | Js.Object o' => Js.get o' "success"
      | _ => Js.Undefined
      end
  | _ => Js.Undefined
  end.

(** The entries of every [tool_response] the armed timers will send. *)
Definition responses (w : Effects) : list FunctionResponse :=
  flat_map (fun t =>
    flat_map (fun c => match c with SendToolResponse rs => default [] rs end)
             (callback t)) (timers w).

(** The one timer a handler can arm for a batch. *)
Definition armed (toolCall : LiveServerToolCall) : list Timer :=
  [{| delay := 200; callback := respond toolCall |}].


(** A message without a [functionCalls] field. *)
Definition missing : LiveServerToolCall := {| functionCalls := None |}.

(** The names the hook's [logCall] has a branch for. *)
Definition useAltairAI_handled (fc : FunctionCall) : bool :=
  name_is fc "log_ai_speech" || name_is fc "log_question_start"
  || name_is fc "log_question_end" || name_is fc "log_ai_response".

(** The names the first component revision does something for. *)
Definition AltairComponent3_handled (fc : FunctionCall) : bool :=
  name_is fc "log_question_start" || name_is fc "log_question_end"
  || name_is fc "log_ai_response" || name_is fc declaration_name.

Definition nullish_or_string (v : Js.Value) : bool :=
  match v with
  | Js.Undefined | Js.Null | Js.Str _ => true
  | _ => false
  end.

(** The calls the hook's [logCall] gets through without a [TypeError]: a
    branch that reads the arguments needs the argument object, and the two
    that upper-case [type] need it absent, null or a string. *)
Definition useAltairAI_readable (fc : FunctionCall) : bool :=
  if name_is fc "log_ai_speech" || name_is fc "log_ai_response" then
    match args fc with
    | Some o => nullish_or_string (Js.get o "type")
    | None => false
    end
  else if name_is fc "log_question_start" || name_is fc "log_question_end" then
    bool_decide (is_Some (args fc))
  else true.

(** *** The design document's statements about the dispatcher *)

(** A call whose name matches no branch is answered with [{success:false}]. *)
Definition unmatched_answered_with_failure
    (handler : LiveServerToolCall -> M unit) (handled : FunctionCall -> bool) : Prop :=
  forall toolCall calls fc,
    functionCalls toolCall = Some calls ->
    fc ∈ calls ->
    handled fc = false ->
    exists r, r ∈ responses (run (handler toolCall)).1 /\
              fr_id r = id fc /\ successFlag r = Js.Boolean false.

(** The responses of a batch leave in one send, 200 ms after the batch came:
    at most one timer is armed, every armed timer waits 200 ms and sends once,
    an entry for each call of the batch in order, and a batch with a call in it
    that the handler gets through does arm it. *)
Definition flushed_together
    (handler : LiveServerToolCall -> M unit) (toolCall : LiveServerToolCall) : Prop :=
  let w := (run (handler toolCall)).1 in
  (length (timers w) <= 1)%nat /\
  (forall t, t ∈ timers w ->
     delay t = 200 /\
     exists calls, functionCalls toolCall = Some calls /\
       callback t = [SendToolResponse (Some (successResponse <$> calls))]) /\
  (forall calls, functionCalls toolCall = Some calls -> calls <> [] ->
     completes (handler toolCall) ->
     length (timers w) = 1%nat /\ responses w = successResponse <$> calls).


(** A message with no calls leaves no trace at all. *)
Definition ignored_silently (handler : LiveServerToolCall -> M unit) : Prop :=
  forall toolCall,
    functionCalls toolCall = None \/ functionCalls toolCall = Some [] ->
    run (handler toolCall) = (no_effects, Normal tt).

(** Two messages the client library's types allow: a call without arguments,
    and a [type] that is a number. *)
Definition without_args : LiveServerToolCall :=
  batch [{| id := Some "a"; name := Some "log_question_start"; args := None |}].

Definition numeric_type : LiveServerToolCall :=
  batch [call "a" "log_ai_speech"
           {[ "speech" := Js.Str "Hello"; "type" := Js.Number 1 ]}].

(** A call of a tool nobody handles, and one that lacks its required property. *)
Definition unknown_tool : LiveServerToolCall :=
  batch [call "a" "unknown_tool" ∅].


(** *** The volume indicator *)

(** A width between 5 and 100 per cent. *)
Definition in_range (w : float) : Prop :=
  PrimFloat.leb 5 w = true /\ PrimFloat.leb w 100 = true.

Definition width_always_in_range : Prop :=
  forall volume, in_range (AudioControlTray.volumeWidth volume).

(** *** The design document's statement about the greeting *)

(** The greeting follows a ["ready"] event some effect subscribes to, and no
    send waits behind a sleep. *)
Definition greets_on_ready (runs : list Greeting.Run) : Prop :=
  (exists r, r ∈ runs /\ "ready" ∈ Greeting.subscriptions r) /\
  (forall r, r ∈ runs -> forall session, Greeting.delayed_sends session r = []).

(** *** The design document's statement about muting *)

(** The two registrations of the tray's effect. *)
Definition tray_listeners : list (AudioRecorder.Event * AudioRecorder.Listener) :=
  [(AudioRecorder.data, AudioRecorder.onData);
   (AudioRecorder.volume, AudioRecorder.setInVolume)].

(** Muting a running recorder keeps the device and the metering: the recorder
    still records, a tick still delivers its volume, and no chunk is sent. *)
Definition mute_keeps_metering : Prop :=
  forall s,
    AudioControlTray.reachable s ->
    AudioControlTray.connected s = true ->
    AudioControlTray.muted s = false ->
    AudioRecorder.recording (AudioControlTray.audioRecorder s) = true ->
    let s' := AudioControlTray.step s AudioControlTray.ClickMic in
    AudioControlTray.muted s' = true /\
    AudioRecorder.recording (AudioControlTray.audioRecorder s') = true /\
    forall base64 v,
      let s'' := AudioControlTray.step s' (AudioControlTray.Tick base64 v) in
      AudioControlTray.inVolume s'' = v /\
      AudioControlTray.realtimeInput s'' = AudioControlTray.realtimeInput s'.

(** The recorder follows [connected && !muted]. *)
Definition tray_invariant (s : AudioControlTray.State) : Prop :=
  let active := AudioControlTray.connected s && negb (AudioControlTray.muted s) in
  AudioRecorder.listeners (AudioControlTray.audioRecorder s)
    = (if active then tray_listeners else []) /\
  (AudioRecorder.recording (AudioControlTray.audioRecorder s) = true -> active = true).

(** Five frames waiting in a buffer of sixteen. *)
Definition five_buffered : AudioPlaybackEngine.t :=
  {| AudioPlaybackEngine.capacity := 16;
     AudioPlaybackEngine.queue :=
       map (fun n => {| AudioPlaybackEngine.sequence := n;
                        AudioPlaybackEngine.samples := [0; 0; 0; 0] |})
           [1; 2; 3; 4; 5]%nat |}.

(** ** What a batch leaves on the console *)

(** The lines the hook writes for one call. *)
Definition useAltairAI_lines (fc : FunctionCall) : list (list Js.Value) :=
  console (Handler.run (useAltairAI.logCall fc)).1.

(** The hook's banner for a batch. *)
Definition useAltairAI_banner (calls : list FunctionCall) : list Js.Value :=
  [Js.Str "[ALTAIR] Received tool calls:";
   Js.Array (map (fun fc => optional (name fc)) calls)].

(** The calls of a batch up to the first one the hook cannot read. *)
Fixpoint readable_prefix (calls : list FunctionCall) : list FunctionCall :=
  match calls with
  | [] => []
  | fc :: rest =>
      if useAltairAI_readable fc then fc :: readable_prefix rest else []
  end.

(** The chart call of a batch: the first one named [render_altair]. *)
Definition chart_call (calls : list FunctionCall) : option FunctionCall :=
  List.find (fun fc => name_is fc declaration_name) calls.

(** Two chart calls in one batch. *)
Definition two_charts : list FunctionCall :=
  [call "a" "render_altair" {[ "json_graph" := Js.Str "{}" ]};
   call "b" "render_altair" {[ "json_graph" := Js.Str "[]" ]}].

(** ** Strings *)

Module JsString.

(** [!s.trim()]: the string is empty once white space and line terminators
    are trimmed, that is, it holds nothing else. Strings are UTF-8 bytes; the
    code points trimmed are TAB, LF, VT, FF, CR, SP, U+00A0, U+1680,
    U+2000-U+200A, U+2028, U+2029, U+202F, U+205F, U+3000 and U+FEFF. *)
Fixpoint blank (s : string) : bool :=
  match s with
  | EmptyString => true
  | String.String c r =>
      let n := nat_of_ascii c in
      if ((9 <=? n) && (n <=? 13) || (n =? 32))%nat then blank r
      else
        match r with
        | String.String c1 r1 =>
            let n1 := nat_of_ascii c1 in
            if ((n =? 194) && (n1 =? 160))%nat then blank r1
            else
              match r1 with
              | String.String c2 r2 =>
                  let n2 := nat_of_ascii c2 in
                  if ((n =? 225) && (n1 =? 154) && (n2 =? 128)
                      || (n =? 226) && (n1 =? 128)
                         && ((128 <=? n2) && (n2 <=? 138)
                             || (n2 =? 168) || (n2 =? 169) || (n2 =? 175))
                      || (n =? 226) && (n1 =? 129) && (n2 =? 159)
                      || (n =? 227) && (n1 =? 128) && (n2 =? 128)
                      || (n =? 239) && (n1 =? 187) && (n2 =? 191))%nat
                  then blank r2
                  else false
              | EmptyString => false
              end
        | EmptyString => false
        end
  end.

(** [s.includes(sub)] *)
Fixpoint includes (s sub : string) : bool :=
  String.prefix sub s
  || match s with
     | EmptyString => false
     | String.String _ r => includes r sub
     end.

End JsString.

(** ** The hook's effects over its life *)

Module AltairHook.

Record State : Type := {
  isInitialized : bool;
  connected : bool;                   (* as last rendered *)
  mounted : bool;
  configured : nat;                   (* setConfig calls *)
  listeners : list string;            (* the hook's registrations on the client *)
  pending : list Greeting.Sleep;      (* every sleep started; none is ever cancelled *)
  log : list Greeting.Action;
}.

(** What one run of an effect adds. *)
Definition apply (r : Greeting.Run) (s : State) : State :=
  {| isInitialized := isInitialized s; connected := connected s;
     mounted := mounted s; configured := configured s;
     listeners := listeners s ++ Greeting.subscriptions r;
     pending := pending s ++ Greeting.sleeps r;
     log := log s ++ Greeting.now r |}.

(** Step 1: [setModel], [setConfig], [setIsInitialized(true)]; the new state
    shows at the next render. *)
Definition configure (s : State) : State :=
  {| isInitialized := isInitialized s; connected := connected s;
     mounted := mounted s; configured := S (configured s);
     listeners := listeners s; pending := pending s;
     log := log s ++
       [Greeting.Log "[ALTAIR] Configuring AI model and system instruction"] |}.

Definition rendered (i c : bool) (s : State) : State :=
  {| isInitialized := i; connected := c;
     mounted := mounted s; configured := configured s;
     listeners := listeners s; pending := pending s; log := log s |}.

(** The first render sees [isInitialized = false]: its three effects run in
    order. Step 1 sets the state, so the hook renders again, and steps 2 and 3,
    whose dependencies changed, run again. *)
Definition mount (c : bool) : State :=
  let s0 := {| isInitialized := false; connected := c; mounted := true;
               configured := 0; listeners := []; pending := []; log := [] |} in
  let s1 := configure s0 in
  let s2 := apply (Greeting.useAltairAI_handlers false true) s1 in
  let s3 := apply (Greeting.useAltairAI_sendGreeting c false) s2 in
  let s4 := rendered true c s3 in
  let s5 := apply (Greeting.useAltairAI_handlers true true) s4 in
  apply (Greeting.useAltairAI_sendGreeting c true) s5.

Inductive Event : Type :=
| Connection (c : bool)   (* the context's [connected] becomes [c] *)
| Unmount.

Definition step (s : State) (e : Event) : State :=
  if mounted s then
    match e with
    | Connection c =>
        if Bool.eqb c (connected s) then s
        else
          (* only step 3 depends on [connected]; it returns no clean-up *)
          apply (Greeting.useAltairAI_sendGreeting c (isInitialized s))
                (rendered (isInitialized s) c s)
    | Unmount =>
        (* the clean-up of step 2 *)
        {| isInitialized := isInitialized s; connected := connected s;
           mounted := false; configured := configured s;
           listeners := filter (fun e => e <> "toolcall") (listeners s);
           pending := pending s;
           log := log s ++ [Greeting.Log "[ALTAIR] Unregistering tool call handler"] |}
    end
  else s.

Definition run (s : State) (es : list Event) : State := fold_left step es s.

(** How often a signal that was [prev] goes from [false] to [true]. *)
Fixpoint rising (prev : bool) (cs : list bool) : nat :=
  match cs with
  | [] => 0
  | c :: rest => (if negb prev && c then 1 else 0) + rising c rest
  end.

End AltairHook.

(** ** The chat layout *)

Module ChatLayout.

Inductive Role : Type := user | assistant.

Record Message : Type := {
  msg_id : string;
  role : Role;
  content : string;
  timestamp : Z;
}.

(** What a click asks of the session context. *)
Inductive Request : Type := connect | disconnect.

Record State : Type := {
  connected : bool;               (* from the session context *)
  messages : list Message;
  textInput : string;
  muted : bool;
  showLogs : bool;
  showSidebar : bool;
  sent : list string;             (* client.send([{ text }]) calls, the hook's too *)
  console : list (list Js.Value); (* console.log calls of the layout itself *)
  requests : list Request;        (* connect() and disconnect() calls *)
  hook : AltairHook.State;        (* the [useAltairAI()] the layout runs *)
  resumed : nat;                  (* how many of the hook's sleeps are over *)
}.

Definition initial (c : bool) : State :=
  {| connected := c; messages := []; textInput := ""; muted := false;
     showLogs := true; showSidebar := true; sent := []; console := [];
     requests := []; hook := AltairHook.mount c; resumed := 0 |}.

(** [handleSendMessage]; [random] is [Math.random().toString()] and [now] is
    [new Date()]. *)
Definition handleSendMessage (random : string) (now : Z) (s : State) : State :=
  if JsString.blank (textInput s) then s
  else
    {| connected := connected s;
       messages := messages s ++
         [{| msg_id := random; role := user; content := textInput s;
             timestamp := now |}];
       textInput := "";
       muted := muted s; showLogs := showLogs s; showSidebar := showSidebar s;
       sent := sent s ++ [textInput s];
       console := console s ++ [[Js.Str "👤 USER TEXT:"; Js.Str (textInput s)]];
       requests := requests s;
       hook := hook s; resumed := resumed s |}.

(** [handleKeyDown]; the boolean tells whether [preventDefault] was called. *)
Definition handleKeyDown (key : string) (shiftKey : bool)
    (random : string) (now : Z) (s : State) : State * bool :=
  if String.eqb key "Enter" && negb shiftKey
  then (handleSendMessage random now s, true)
  else (s, false).

Definition request (r : Request) (s : State) : State :=
  {| connected := connected s; messages := messages s; textInput := textInput s;
     muted := muted s; showLogs := showLogs s; showSidebar := showSidebar s;
     sent := sent s; console := console s; requests := requests s ++ [r];
     hook := hook s; resumed := resumed s |}.

(** What the hook's async function does when its sleep is over: its
    [client.send] goes to the client the layout sends to, its console lines to
    the hook's log. *)
Definition greet (actions : list Greeting.Action) (s : State) : State :=
  {| connected := connected s; messages := messages s; textInput := textInput s;
     muted := muted s; showLogs := showLogs s; showSidebar := showSidebar s;
     sent := sent s ++
       omap (fun a => match a with
                      | Greeting.ClientSend text => Some text
                      | Greeting.Log _ => None
                      end) actions;
     console := console s;
     requests := requests s;
     hook :=
       {| AltairHook.isInitialized := AltairHook.isInitialized (hook s);
          AltairHook.connected := AltairHook.connected (hook s);
          AltairHook.mounted := AltairHook.mounted (hook s);
          AltairHook.configured := AltairHook.configured (hook s);
          AltairHook.listeners := AltairHook.listeners (hook s);
          AltairHook.pending := AltairHook.pending (hook s);
          AltairHook.log := AltairHook.log (hook s) ++
            omap (fun a => match a with
                           | Greeting.Log line => Some (Greeting.Log line)
                           | Greeting.ClientSend _ => None
                           end) actions |};
     resumed := S (resumed s) |}.

(** What the user, the session context and the hook's timers can do. A
    disabled control and a control that is not rendered take no event. *)
Inductive Event : Type :=
| Connection (c : bool)           (* the context's [connected] becomes [c] *)
| GreetingResumes (session : bool)
                                  (* the hook's oldest sleep is over;
                                     [session]: is [client.session] set *)
| Change (value : string)         (* the text area, disabled while not connected *)
| KeyDown (key : string) (shiftKey : bool) (random : string) (now : Z)
| ClickSend (random : string) (now : Z)
                                  (* disabled while not connected or blank *)
| ClickMic                        (* disabled while not connected *)
| NewChat                         (* in the sidebar *)
| Logout                          (* in the sidebar *)
| StartStop                       (* shown while there is no message *)
| ToggleSidebar
| CloseLogs
| ShowLogs.                       (* shown while the logs are closed *)

Definition step (s : State) (e : Event) : State :=
  match e with
  | Connection c =>
      {| connected := c; messages := messages s; textInput := textInput s;
         muted := muted s; showLogs := showLogs s; showSidebar := showSidebar s;
         sent := sent s; console := console s; requests := requests s;
         hook := AltairHook.step (hook s) (AltairHook.Connection c);
         resumed := resumed s |}
  | GreetingResumes session =>
      match AltairHook.pending (hook s) !! resumed s with
      | Some sleep => greet (Greeting.resume sleep session) s
      | None => s
      end
  | Change value =>
      if connected s then
        {| connected := connected s; messages := messages s; textInput := value;
           muted := muted s; showLogs := showLogs s; showSidebar := showSidebar s;
           sent := sent s; console := console s; requests := requests s;
           hook := hook s; resumed := resumed s |}
      else s
  | KeyDown key shiftKey random now =>
      if connected s then (handleKeyDown key shiftKey random now s).1 else s
  | ClickSend random now =>
      if connected s && negb (JsString.blank (textInput s))
      then handleSendMessage random now s else s
  | ClickMic =>
      if connected s then
        {| connected := connected s; messages := messages s;
           textInput := textInput s; muted := negb (muted s);
           showLogs := showLogs s; showSidebar := showSidebar s;
           sent := sent s; console := console s; requests := requests s;
           hook := hook s; resumed := resumed s |}
      else s
  | NewChat =>
      if showSidebar s then
        {| connected := connected s; messages := []; textInput := textInput s;
           muted := muted s; showLogs := showLogs s; showSidebar := showSidebar s;
           sent := sent s; console := console s; requests := requests s;
           hook := hook s; resumed := resumed s |}
      else s
  | Logout => if showSidebar s then request disconnect s else s
  | StartStop =>
      match messages s with
      | [] => request (if connected s then disconnect else connect) s
      | _ :: _ => s
      end
  | ToggleSidebar =>
      {| connected := connected s; messages := messages s;
         textInput := textInput s; muted := muted s; showLogs := showLogs s;
         showSidebar := negb (showSidebar s);
         sent := sent s; console := console s; requests := requests s;
         hook := hook s; resumed := resumed s |}
  | CloseLogs =>
      if showLogs s then
        {| connected := connected s; messages := messages s;
           textInput := textInput s; muted := muted s; showLogs := false;
           showSidebar := showSidebar s;
           sent := sent s; console := console s; requests := requests s;
           hook := hook s; resumed := resumed s |}
      else s
  | ShowLogs =>
      if showLogs s then s
      else
        {| connected := connected s; messages := messages s;
           textInput := textInput s; muted := muted s; showLogs := true;
           showSidebar := showSidebar s;
           sent := sent s; console := console s; requests := requests s;
           hook := hook s; resumed := resumed s |}
  end.

Inductive reachable : State -> Prop :=
| reach_initial c : reachable (initial c)
| reach_step s e : reachable s -> reachable (step s e).

End ChatLayout.

(** ** The chat input card *)

Module ChatInput.

Record State : Type := {
  textInput : string;
  sent : list string;             (* client.send([{ text }]) calls *)
  console : list (list Js.Value);
}.

(** [handleSubmit] *)
Definition handleSubmit (s : State) : State :=
  if JsString.blank (textInput s) then s
  else
    {| textInput := "";
       sent := sent s ++ [textInput s];
       console := console s ++ [[Js.Str "👤 USER TEXT:"; Js.Str (textInput s)]] |}.

(** [handleKeyDown]; the boolean tells whether [preventDefault] and
    [stopPropagation] were called. *)
Definition handleKeyDown (key : string) (shiftKey : bool) (s : State) : State * bool :=
  if String.eqb key "Enter" && negb shiftKey
  then (handleSubmit s, true)
  else (s, false).

End ChatInput.

(** ** The logs viewer *)

Module LogsViewer.

Definition getLevelColor (type : string) : string :=
  if JsString.includes type "error" then "text-red-500"
  else if JsString.includes type "audio" then "text-blue-500"
  else if JsString.includes type "send" then "text-green-500"
  else if JsString.includes type "receive" then "text-orange-500"
  else "text-slate-400".

Definition getEmoji (type : string) : string :=
  if JsString.includes type "error" then "❌"
  else if JsString.includes type "audio" then "🎵"
  else if JsString.includes type "question" then "❓"
  else if JsString.includes type "send" then "📤"
  else if JsString.includes type "receive" then "📥"
  else "📝".

End LogsViewer.


(** *** What the chat layout keeps *)

(** The text of the hook's greeting. *)
Definition greeting : string :=
  "Hello, I'm ready to begin the IELTS speaking test.".

(** A sleep of the hook's greeting effect. *)
Definition greeting_sleep (sl : Greeting.Sleep) : Prop :=
  forall session,
    Greeting.resume sl session =
      if session
      then [Greeting.Log "[ALTAIR] Sending initial greeting to start AI";
            Greeting.ClientSend greeting]
      else [Greeting.Log "[ALTAIR] Session not ready yet"].

(** Every message on screen is the user's, is not blank and was sent, in the
    order shown; nothing blank was ever sent; the hook sleeps for its greeting
    only. *)
Definition chat_invariant (s : ChatLayout.State) : Prop :=
  Forall (fun m => ChatLayout.role m = ChatLayout.user /\
                   JsString.blank (ChatLayout.content m) = false)
         (ChatLayout.messages s) /\
  Forall (fun t => JsString.blank t = false) (ChatLayout.sent s) /\
  map ChatLayout.content (ChatLayout.messages s) `sublist_of` ChatLayout.sent s /\
  Forall greeting_sleep (AltairHook.pending (ChatLayout.hook s)).

(** ** The tray between a render and its effect

    React runs an effect after the render that changed its dependencies, and
    before it renders again. A capture tick comes from the recorder, not from
    React, and can fall in between. *)

Module TrayEffects.

Record State : Type := {
  tray : AudioControlTray.State;   (* as last rendered *)
  pendingEffect : bool;            (* the last render's effect has not run yet *)
  effectSaw : bool;                (* [connected && !muted] as the effect last saw it *)
}.

Definition active (s : AudioControlTray.State) : bool :=
  AudioControlTray.connected s && negb (AudioControlTray.muted s).

(** The pending clean-up and effect run, if any. *)
Definition flushEffects (r : State) : State :=
  if pendingEffect r then
    {| tray := AudioControlTray.commit (tray r);
       pendingEffect := false;
       effectSaw := active (tray r) |}
  else r.

(** A render with changed dependencies. *)
Definition render (s : AudioControlTray.State) (r : State) : State :=
  {| tray := s; pendingEffect := true; effectSaw := effectSaw r |}.

(** A change outside the effect's dependencies, or a call from the recorder. *)
Definition update (s : AudioControlTray.State) (r : State) : State :=
  {| tray := s; pendingEffect := pendingEffect r; effectSaw := effectSaw r |}.

Inductive Event : Type :=
| Connection (c : bool)
| ClickMic
| Device (available : bool)
| Tick (base64 : string) (v : float)
                                 (* the render its [setInVolume] asks for comes later *)
| EffectsRun.                    (* React runs the pending effects *)

Definition step (r : State) (e : Event) : State :=
  match e with
  | Connection c =>
      let r := flushEffects r in
      let s := tray r in
      if Bool.eqb c (AudioControlTray.connected s) then r
      else render
        {| AudioControlTray.connected := c;
           AudioControlTray.muted := AudioControlTray.muted s;
           AudioControlTray.inVolume := AudioControlTray.inVolume s;
           AudioControlTray.deviceAvailable := AudioControlTray.deviceAvailable s;
           AudioControlTray.audioRecorder := AudioControlTray.audioRecorder s;
           AudioControlTray.realtimeInput := AudioControlTray.realtimeInput s |} r
  | ClickMic =>
      let r := flushEffects r in
      let s := tray r in
      if AudioControlTray.connected s then
        render
          {| AudioControlTray.connected := AudioControlTray.connected s;
             AudioControlTray.muted := negb (AudioControlTray.muted s);
             AudioControlTray.inVolume := AudioControlTray.inVolume s;
             AudioControlTray.deviceAvailable := AudioControlTray.deviceAvailable s;
             AudioControlTray.audioRecorder := AudioControlTray.audioRecorder s;
             AudioControlTray.realtimeInput := AudioControlTray.realtimeInput s |} r
      else r
  | Device a =>
      update (AudioControlTray.step (tray r) (AudioControlTray.Device a)) r
  | Tick base64 v =>
      update (AudioControlTray.step (tray r) (AudioControlTray.Tick base64 v)) r
  | EffectsRun => flushEffects r
  end.

(** A tray whose effect has run. *)
Definition settled (s : AudioControlTray.State) : State :=
  {| tray := s; pendingEffect := false; effectSaw := active s |}.

Definition mount (c device : bool) : State :=
  settled (AudioControlTray.mount c device).

Inductive reachable : State -> Prop :=
| reach_mount c device : reachable (mount c device)
| reach_step r e : reachable r -> reachable (step r e).

End TrayEffects.

(** The recorder follows what the effect last saw; without a pending effect
    that is what the tray shows now. *)
Definition effects_invariant (r : TrayEffects.State) : Prop :=
  AudioRecorder.listeners (AudioControlTray.audioRecorder (TrayEffects.tray r))
    = (if TrayEffects.effectSaw r then tray_listeners else []) /\
  (AudioRecorder.recording (AudioControlTray.audioRecorder (TrayEffects.tray r)) = true ->
   TrayEffects.effectSaw r = true) /\
  (TrayEffects.pendingEffect r = false ->
   TrayEffects.effectSaw r = TrayEffects.active (TrayEffects.tray r)).

(** *** The design document's statement about audio and the connection *)



(** A batch of two calls, the second without arguments. *)
Definition second_without_args : LiveServerToolCall :=
  batch [call "a" "log_question_end" {[ "question" := Js.Str "Why?" ]};
         {| id := Some "b"; name := Some "log_question_end"; args := None |}].
(** * Properties *)

Lemma hometown_run :
  run (useAltairAI.onToolCall hometown) =
  ({| console :=
        [[Js.Str "[ALTAIR] Received tool calls:"; Js.Array [Js.Str "log_question_start"]];
         [Js.Str "📝 QUESTION START:"; Js.Str "Tell me about your hometown"]];
      jsonString := [];
      timers := [{| delay := 200; callback := respond hometown |}] |},
   Normal tt).
Proof. reflexivity. Qed.

Lemma successFlag_successResponse fc :
  successFlag (successResponse fc) = Js.Boolean true.
Proof. reflexivity. Qed.

(** ** The handlers only add to what was done before *)

Lemma bind_eq {A B} (m : M A) (k : A -> M B) w :
  (m ≫= k) w =
  match m w with
  | (w', Normal a) => k a w'
  | (w', Throw e) => (w', Throw e)
  end.
Proof. reflexivity. Qed.

Ltac handler_unfold :=
  repeat progress
    unfold prop, optUpperCase, mbind, M_bind, mret, M_ret, bind, ret, throw,
      console_log, setJSONString, setTimeout in *.

Ltac handler_cases :=
  repeat (handler_unfold; simpl in *; try case_match; simplify_eq; try done).

Lemma useAltairAI_logCall_timers fc w :
  timers (useAltairAI.logCall fc w).1 = timers w.
Proof. unfold useAltairAI.logCall. handler_unfold. handler_cases. Qed.

Lemma AltairComponent2_logCall_timers fc w :
  timers (AltairComponent2.logCall fc w).1 = timers w.
Proof. unfold AltairComponent2.logCall. handler_unfold. handler_cases. Qed.

Lemma AltairComponent3_logCall_timers fc w :
  timers (AltairComponent3.logCall fc w).1 = timers w.
Proof. unfold AltairComponent3.logCall. handler_unfold. handler_cases. Qed.

Lemma forEach_timers {A} (f : A -> M unit) (xs : list A) :
  (forall x w, timers (f x w).1 = timers w) ->
  forall w, timers (forEach xs f w).1 = timers w.
Proof.
  intros Hf. induction xs as [|x xs IH]; intros w; simpl; [done|].
  unfold bind. specialize (Hf x w).
  destruct (f x w) as [w' [[]|e]]; simpl in *; [|done].
  by rewrite IH.
Qed.

(** ** What a handler arms *)

Lemma respond_batch calls :
  respond (batch calls) = [SendToolResponse (Some (successResponse <$> calls))].
Proof. reflexivity. Qed.

Lemma length_nonzero {A} (xs : list A) :
  negb (length xs =? 0)%nat = true <-> xs <> [].
Proof. destruct xs; simpl; split; congruence. Qed.

Lemma useAltairAI_timers toolCall :
  timers (run (useAltairAI.onToolCall toolCall)).1 =
  match (run (useAltairAI.onToolCall toolCall)).2, functionCalls toolCall with
  | Normal _, Some (_ :: _) => armed toolCall
  | _, _ => []
  end.
Proof.
  unfold run, useAltairAI.onToolCall.
  destruct (functionCalls toolCall) as [calls|] eqn:Hc; [|done].
  rewrite bind_eq. simpl. rewrite bind_eq.
  match goal with |- context [forEach calls useAltairAI.logCall ?w] =>
    pose proof (forEach_timers useAltairAI.logCall calls
                  useAltairAI_logCall_timers w) as Hf;
    destruct (forEach calls useAltairAI.logCall w) as [w' [[]|e]]
  end; simpl in *; [|done].
  destruct calls; simpl; [done|]. by rewrite Hf.
Qed.

Lemma render_timers calls w :
  timers
    (match List.find (fun fc => name_is fc declaration_name) calls with
     | Some fc => str ← prop (args fc) "json_graph"; setJSONString str
     | None => mret tt
     end w).1 = timers w.
Proof. handler_cases. Qed.

Lemma AltairComponent2_timers toolCall :
  timers (run (AltairComponent2.onToolCall toolCall)).1 =
  match (run (AltairComponent2.onToolCall toolCall)).2, functionCalls toolCall with
  | Normal _, Some (_ :: _) => armed toolCall
  | _, _ => []
  end.
Proof.
  unfold run, AltairComponent2.onToolCall.
  destruct (functionCalls toolCall) as [calls|] eqn:Hc; [|done].
  rewrite bind_eq.
  pose proof (forEach_timers AltairComponent2.logCall calls
                AltairComponent2_logCall_timers no_effects) as Hf.
  destruct (forEach calls AltairComponent2.logCall no_effects) as [w' [[]|e]];
    simpl in *; [|done].
  rewrite bind_eq.
  pose proof (render_timers calls w') as Hr.
  match goal with |- context [match ?m w' with _ => _ end] =>
    destruct (m w') as [w'' [[]|e]] end; simpl in *; [|congruence].
  destruct calls; simpl; [congruence|]. by rewrite Hr, Hf.
Qed.

Lemma AltairComponent3_timers toolCall :
  timers (run (AltairComponent3.onToolCall toolCall)).1 =
  match (run (AltairComponent3.onToolCall toolCall)).2, functionCalls toolCall with
  | Normal _, Some (_ :: _) => armed toolCall
  | _, _ => []
  end.
Proof.
  unfold run, AltairComponent3.onToolCall.
  destruct (functionCalls toolCall) as [calls|] eqn:Hc; [|done].
  rewrite bind_eq.
  pose proof (forEach_timers AltairComponent3.logCall calls
                AltairComponent3_logCall_timers no_effects) as Hf.
  destruct (forEach calls AltairComponent3.logCall no_effects) as [w' [[]|e]];
    simpl in *; [|done].
  rewrite bind_eq.
  pose proof (render_timers calls w') as Hr.
  match goal with |- context [match ?m w' with _ => _ end] =>
    destruct (m w') as [w'' [[]|e]] end; simpl in *; [|congruence].
  destruct calls; simpl; [congruence|]. by rewrite Hr, Hf.
Qed.

Lemma responses_armed toolCall calls w :
  functionCalls toolCall = Some calls ->
  timers w = armed toolCall ->
  responses w = successResponse <$> calls.
Proof.
  intros Hc Ht. unfold responses. rewrite Ht. unfold armed, respond. simpl.
  rewrite Hc. simpl. by rewrite !app_nil_r.
Qed.

Lemma filter_none {A} (P : A -> Prop) `{!forall x, Decision (P x)} (l : list A) :
  (forall x, x ∈ l -> ~ P x) -> filter P l = [].
Proof.
  induction l as [|y l IH]; intros Hl; [done|].
  rewrite filter_cons_False; [|apply Hl; left].
  apply IH. intros x Hx. apply Hl. by right.
Qed.

(** Consequences of the shape of the armed timers, for any of the handlers. *)
Section Armed.

Variable handler : LiveServerToolCall -> M unit.

Hypothesis handler_timers : forall toolCall,
  timers (run (handler toolCall)).1 =
  match (run (handler toolCall)).2, functionCalls toolCall with
  | Normal _, Some (_ :: _) => armed toolCall
  | _, _ => []
  end.

Lemma armed_when_completes toolCall calls :
  functionCalls toolCall = Some calls ->
  calls <> [] ->
  completes (handler toolCall) ->
  timers (run (handler toolCall)).1 = armed toolCall.
Proof using handler_timers.
  intros Hc Hne [a Ha]. rewrite handler_timers, Ha, Hc.
  by destruct calls.
Qed.

Lemma armed_at_most_once toolCall :
  timers (run (handler toolCall)).1 = [] \/
  timers (run (handler toolCall)).1 = armed toolCall.
Proof using handler_timers.
  rewrite handler_timers.
  destruct (run (handler toolCall)).2, (functionCalls toolCall) as [[|]|]; auto.
Qed.

Lemma nothing_armed_when_thrown toolCall e :
  (run (handler toolCall)).2 = Throw e ->
  timers (run (handler toolCall)).1 = [].
Proof using handler_timers. intros He. by rewrite handler_timers, He. Qed.

Lemma every_call_answered toolCall calls fc :
  functionCalls toolCall = Some calls ->
  fc ∈ calls ->
  completes (handler toolCall) ->
  timers (run (handler toolCall)).1 = armed toolCall /\
  successResponse fc ∈ responses (run (handler toolCall)).1 /\
  (forall r, r ∈ responses (run (handler toolCall)).1 ->
             successFlag r = Js.Boolean true).
Proof using handler_timers.
  intros Hc Hin Hok.
  assert (calls <> []) as Hne by (intros ->; by apply not_elem_of_nil in Hin).
  pose proof (armed_when_completes _ _ Hc Hne Hok) as Ht.
  rewrite (responses_armed _ _ _ Hc Ht). split; [done|]. split.
  - by apply list_elem_of_fmap_2.
  - intros r Hr. apply list_elem_of_fmap in Hr as (fc' & -> & _).
    apply successFlag_successResponse.
Qed.

(** With distinct ids in the batch, exactly one entry carries a call's id. *)
Lemma answered_exactly_once toolCall calls fc :
  functionCalls toolCall = Some calls ->
  NoDup (id <$> calls) ->
  fc ∈ calls ->
  completes (handler toolCall) ->
  filter (fun r => fr_id r = id fc) (responses (run (handler toolCall)).1)
  = [successResponse fc].
Proof using handler_timers.
  intros Hc Hnd Hin Hok.
  assert (calls <> []) as Hne by (intros ->; by apply not_elem_of_nil in Hin).
  rewrite (responses_armed _ _ _ Hc (armed_when_completes _ _ Hc Hne Hok)).
  clear Hc Hok Hne. induction calls as [|c calls IH]; [by apply not_elem_of_nil in Hin|].
  rewrite fmap_cons in Hnd. apply NoDup_cons in Hnd as [Hc Hnd].
  rewrite fmap_cons, filter_cons. simpl.
  apply elem_of_cons in Hin as [->|Hin].
  - rewrite decide_True by done. f_equal.
    apply filter_none. intros r Hr.
    apply list_elem_of_fmap in Hr as (c' & -> & Hc'). simpl. intros Heq.
    apply Hc. rewrite <- Heq. by apply list_elem_of_fmap_2.
  - rewrite decide_False; [by apply IH|].
    intros Heq. apply Hc. rewrite Heq. by apply list_elem_of_fmap_2.
Qed.

Lemma flushed_together_of_timers toolCall : flushed_together handler toolCall.
Proof using handler_timers.
  unfold flushed_together. split; [|split].
  - destruct (armed_at_most_once toolCall) as [-> | ->]; simpl; lia.
  - intros t Ht. destruct (armed_at_most_once toolCall) as [Hn | Ha].
    + rewrite Hn in Ht. by apply not_elem_of_nil in Ht.
    + rewrite Ha in Ht. apply list_elem_of_singleton in Ht as ->. simpl.
      split; [done|]. rewrite handler_timers in Ha.
      destruct (functionCalls toolCall) as [calls|] eqn:Hc.
      * exists calls. split; [done|]. unfold respond. by rewrite Hc.
      * by destruct (run (handler toolCall)).2.
  - intros calls Hc Hne Hok.
    pose proof (armed_when_completes _ _ Hc Hne Hok) as Ht.
    split; [by rewrite Ht|]. by apply (responses_armed toolCall).
Qed.

End Armed.

(** ** Which calls get through *)

Lemma name_is_true fc n : name_is fc n = true -> name fc = Some n.
Proof.
  unfold name_is. destruct (name fc) as [x|]; [|done].
  intros H. by apply String.eqb_eq in H as ->.
Qed.

Ltac one_name :=
  repeat match goal with
         | H : name_is _ _ = true |- _ => apply name_is_true in H
         end;
  simplify_eq.

Lemma useAltairAI_logCall_readable fc w :
  useAltairAI_readable fc = true ->
  exists w', useAltairAI.logCall fc w = (w', Normal tt).
Proof.
  unfold useAltairAI_readable, useAltairAI.logCall.
  intros H. handler_cases; eauto; one_name.
Qed.

Lemma useAltairAI_logCall_unreadable fc w :
  useAltairAI_readable fc = false ->
  exists w' e, useAltairAI.logCall fc w = (w', Throw e).
Proof.
  unfold useAltairAI_readable, useAltairAI.logCall.
  intros H. handler_cases; eauto; one_name.
Qed.

Lemma useAltairAI_forEach_readable calls w :
  forallb useAltairAI_readable calls = true ->
  exists w', forEach calls useAltairAI.logCall w = (w', Normal tt).
Proof.
  revert w. induction calls as [|fc calls IH]; intros w H; simpl in *.
  - by eexists.
  - apply andb_true_iff in H as [Hfc Hcalls].
    destruct (useAltairAI_logCall_readable fc w Hfc) as [w1 Hw1].
    unfold bind. rewrite Hw1. by apply IH.
Qed.

Lemma useAltairAI_forEach_unreadable calls w :
  forallb useAltairAI_readable calls = false ->
  exists w' e, forEach calls useAltairAI.logCall w = (w', Throw e).
Proof.
  revert w. induction calls as [|fc calls IH]; intros w H; simpl in *; [done|].
  unfold bind. destruct (useAltairAI_readable fc) eqn:Hfc; simpl in H.
  - destruct (useAltairAI_logCall_readable fc w Hfc) as [w1 ->]. by apply IH.
  - destruct (useAltairAI_logCall_unreadable fc w Hfc) as (w1 & e & ->). eauto.
Qed.

(** The hook gets through a batch exactly when every call in it is readable. *)
Lemma useAltairAI_completes_iff calls :
  completes (useAltairAI.onToolCall (batch calls)) <->
  forallb useAltairAI_readable calls = true.
Proof.
  unfold completes, run, useAltairAI.onToolCall. simpl.
  rewrite bind_eq. simpl. rewrite bind_eq.
  match goal with |- context [forEach calls useAltairAI.logCall ?w] =>
    set (w0 := w) end.
  destruct (forallb useAltairAI_readable calls) eqn:Hr.
  - destruct (useAltairAI_forEach_readable calls w0 Hr) as [w1 ->].
    split; [done|]. intros _. destruct calls; simpl; by eexists.
  - destruct (useAltairAI_forEach_unreadable calls w0 Hr) as (w1 & e & ->).
    simpl. split; [|done]. by intros [a Ha].
Qed.

Lemma unhandled_readable fc :
  useAltairAI_handled fc = false -> useAltairAI_readable fc = true.
Proof.
  unfold useAltairAI_handled, useAltairAI_readable. intros H.
  repeat (apply orb_false_iff in H as [H ?]).
  repeat match goal with
         | Hn : name_is _ _ = false |- _ => rewrite Hn; clear Hn
         end.
  done.
Qed.

(** Arguments that match the declaration are always readable; the converse
    fails, see [question_end_without_question]. *)
Lemma valid_readable fc : Schema.valid fc = true -> useAltairAI_readable fc = true.
Proof.
  unfold Schema.valid, useAltairAI_readable, name_is.
  destruct (name fc) as [n|]; [|done].
  unfold Schema.lookup, Schema.functionDeclarations, Schema.conversationTools.
  simpl. intros H.
  repeat match type of H with
         | context [String.eqb ?a n] =>
             let E := fresh "E" in
             destruct (String.eqb a n) eqn:E;
             [apply String.eqb_eq in E; subst n; simpl in *|]
         end; try done;
    destruct (args fc) as [o|]; try done; simpl in *;
    unfold Js.get;
    repeat (repeat match goal with
                   | Hc : _ && _ = true |- _ => apply andb_true_iff in Hc as [? ?]
                   end;
            try case_match; simplify_eq; simpl in *; try done).
Qed.

(** ** The dispatcher's answers *)

Lemma unknown_tool_completes :
  completes (useAltairAI.onToolCall unknown_tool) /\
  completes (AltairComponent3.onToolCall unknown_tool).
Proof. split; by exists tt. Qed.

(** C1, as the design document states it, fails: a call whose name matches no
    branch is answered, but with [{success:true}]; no handler ever sends
    [{success:false}]. *)
Lemma unmatched_call_not_answered_with_failure :
  ~ unmatched_answered_with_failure useAltairAI.onToolCall useAltairAI_handled /\
  ~ unmatched_answered_with_failure AltairComponent3.onToolCall AltairComponent3_handled.
Proof.
  split; intros H;
    destruct (H unknown_tool _ (call "a" "unknown_tool" ∅) eq_refl) as (r & Hr & _ & Hf);
    try done; try apply list_elem_of_singleton; try done.
  - destruct (every_call_answered _ useAltairAI_timers unknown_tool _ _ eq_refl
                (proj2 (list_elem_of_singleton _ _) eq_refl)
                (proj1 unknown_tool_completes)) as (_ & _ & Hall).
    rewrite (Hall r Hr) in Hf. discriminate.
  - destruct (every_call_answered _ AltairComponent3_timers unknown_tool _ _ eq_refl
                (proj2 (list_elem_of_singleton _ _) eq_refl)
                (proj2 unknown_tool_completes)) as (_ & _ & Hall).
    rewrite (Hall r Hr) in Hf. discriminate.
Qed.

(** C1, amended: whenever a handler gets through a batch, every call in it,
    one whose name matches no branch included, has an entry with its id and
    name in the one [tool_response] armed for 200 ms later, and every entry's
    output is [{success:true}]. *)
Theorem every_call_answered_with_success toolCall calls fc :
  functionCalls toolCall = Some calls ->
  fc ∈ calls ->
  (completes (useAltairAI.onToolCall toolCall) ->
   let w := (run (useAltairAI.onToolCall toolCall)).1 in
   timers w = armed toolCall /\
   successResponse fc ∈ responses w /\
   forall r, r ∈ responses w -> successFlag r = Js.Boolean true) /\
  (completes (AltairComponent3.onToolCall toolCall) ->
   let w := (run (AltairComponent3.onToolCall toolCall)).1 in
   timers w = armed toolCall /\
   successResponse fc ∈ responses w /\
   forall r, r ∈ responses w -> successFlag r = Js.Boolean true).
Proof.
  intros Hc Hin. split; intros Hok.
  - by apply (every_call_answered _ useAltairAI_timers _ calls).
  - by apply (every_call_answered _ AltairComponent3_timers _ calls).
Qed.

(** The amended C1 at the call of a tool nobody handles. *)
Lemma unknown_tool_answered_with_success :
  let w := (run (useAltairAI.onToolCall unknown_tool)).1 in
  timers w = armed unknown_tool /\
  successResponse (call "a" "unknown_tool" ∅) ∈ responses w /\
  forall r, r ∈ responses w -> successFlag r = Js.Boolean true.
Proof.
  apply (proj1 (every_call_answered_with_success unknown_tool
                  [call "a" "unknown_tool" ∅] (call "a" "unknown_tool" ∅)
                  eq_refl (list_elem_of_here _ _))).
  exists tt. reflexivity.
Defined.

(** A batch of calls none of which matches a branch always gets through. *)
Lemma unhandled_batch_completes calls :
  forallb (fun fc => negb (useAltairAI_handled fc)) calls = true ->
  completes (useAltairAI.onToolCall (batch calls)).
Proof.
  intros H. apply useAltairAI_completes_iff.
  apply forallb_forall. intros fc Hfc.
  apply unhandled_readable, negb_true_iff.
  by apply (proj1 (forallb_forall _ _) H).
Qed.

(** C3: a call that comes without arguments (or with a [type] that is not a
    string) stops the hook with a [TypeError] before the timer is armed; the
    call is never answered. *)
Theorem call_without_args_left_unanswered :
  run (useAltairAI.onToolCall without_args) =
    ({| console := [[Js.Str "[ALTAIR] Received tool calls:";
                     Js.Array [Js.Str "log_question_start"]]];
        jsonString := [];
        timers := [] |},
     Throw (Js.TypeError "Cannot read properties of undefined")) /\
  responses (run (useAltairAI.onToolCall without_args)).1 = [] /\
  (run (useAltairAI.onToolCall numeric_type)).2 =
    Throw (Js.TypeError "toUpperCase is not a function") /\
  responses (run (useAltairAI.onToolCall numeric_type)).1 = [].
Proof. repeat split. Qed.

(** X1. What does hold of the answers: with distinct ids in a batch the handler
    gets through, exactly one entry carries a call's id, and it carries the
    call's name. *)
Theorem each_id_answered_once toolCall calls fc :
  functionCalls toolCall = Some calls ->
  NoDup (id <$> calls) ->
  fc ∈ calls ->
  completes (useAltairAI.onToolCall toolCall) ->
  filter (fun r => fr_id r = id fc)
         (responses (run (useAltairAI.onToolCall toolCall)).1)
  = [{| response := success; fr_id := id fc; fr_name := name fc |}].
Proof. apply (answered_exactly_once _ useAltairAI_timers). Qed.

(** X1 at the design document's scenario. *)
Lemma hometown_answered_once :
  filter (fun r => fr_id r = Some "a")
         (responses (run (useAltairAI.onToolCall hometown)).1)
  = [{| response := success; fr_id := Some "a";
        fr_name := Some "log_question_start" |}].
Proof.
  apply (each_id_answered_once hometown
           [call "a" "log_question_start"
              {[ "question" := Js.Str "Tell me about your hometown" ]}]
           (call "a" "log_question_start"
              {[ "question" := Js.Str "Tell me about your hometown" ]})).
  - reflexivity.
  - apply NoDup_singleton.
  - apply list_elem_of_here.
  - exists tt. reflexivity.
Defined.

(** X2. The hook answers a batch exactly when it can read every call in it: a
    call with a logging branch needs its argument object, and [type], where
    it is upper-cased, must be absent, null or a string. *)
Theorem hook_answers_iff_readable calls :
  calls <> [] ->
  (forallb useAltairAI_readable calls = true ->
   timers (run (useAltairAI.onToolCall (batch calls))).1 = armed (batch calls)) /\
  (forallb useAltairAI_readable calls = false ->
   timers (run (useAltairAI.onToolCall (batch calls))).1 = [] /\
   exists e, (run (useAltairAI.onToolCall (batch calls))).2 = Throw e).
Proof.
  intros Hne. split; intros Hr.
  - apply (armed_when_completes _ useAltairAI_timers (batch calls) calls eq_refl Hne).
    by apply useAltairAI_completes_iff.
  - assert (exists e, (run (useAltairAI.onToolCall (batch calls))).2 = Throw e)
      as [e He].
    { destruct (run (useAltairAI.onToolCall (batch calls))).2 as [[]|e] eqn:E;
        [|by exists e].
      assert (completes (useAltairAI.onToolCall (batch calls))) as Hok
        by (by exists tt).
      apply useAltairAI_completes_iff in Hok. congruence. }
    split; [|by exists e].
    by apply (nothing_armed_when_thrown _ useAltairAI_timers _ e).
Qed.

(** X2 at a call that comes without arguments. *)
Lemma without_args_not_answered :
  timers (run (useAltairAI.onToolCall without_args)).1 = [] /\
  exists e, (run (useAltairAI.onToolCall without_args)).2 = Throw e.
Proof.
  apply (proj2 (hook_answers_iff_readable
                  [{| id := Some "a"; name := Some "log_question_start";
                      args := None |}] ltac:(discriminate))).
  reflexivity.
Defined.

(** C4: a batch with a call the handler cannot read is not flushed at all. The
    first call is handled and logged, the second comes without arguments: the
    handler throws before it reaches [setTimeout], no [tool_response] is armed
    and neither call is answered. The same defect as in C3. *)
Theorem unreadable_call_stops_the_flush :
  Handler.run (useAltairAI.onToolCall second_without_args) =
    ({| console := [[Js.Str "[ALTAIR] Received tool calls:";
                     Js.Array [Js.Str "log_question_end"; Js.Str "log_question_end"]];
                    [Js.Str "✅ QUESTION END:"; Js.Str "Why?"]];
        jsonString := [];
        timers := [] |},
     Throw (Js.TypeError "Cannot read properties of undefined")) /\
  responses (Handler.run (useAltairAI.onToolCall second_without_args)).1 = [] /\
  Handler.run (AltairComponent2.onToolCall second_without_args) =
    ({| console := [[Js.Str "âœ… QUESTION END:"; Js.Str "Why?"]];
        jsonString := [];
        timers := [] |},
     Throw (Js.TypeError "Cannot read properties of undefined")) /\
  responses (Handler.run (AltairComponent2.onToolCall second_without_args)).1 = [].
Proof. repeat split. Qed.

(** X16. How the responses of a batch leave: a handler arms at most one timer
    for a message; an armed timer waits 200 ms and sends once, an entry for
    each call of the batch in order; and a batch with a call in it that the
    handler gets through does arm it. *)
Theorem tool_responses_flushed_together toolCall :
  flushed_together useAltairAI.onToolCall toolCall /\
  flushed_together AltairComponent2.onToolCall toolCall.
Proof.
  split.
  - apply flushed_together_of_timers, useAltairAI_timers.
  - apply flushed_together_of_timers, AltairComponent2_timers.
Qed.

(** X16 at the design document's scenario: one timer, one entry for id ["a"]. *)
Lemma hometown_flushed_together :
  length (timers (run (useAltairAI.onToolCall hometown)).1) = 1%nat /\
  responses (run (useAltairAI.onToolCall hometown)).1 =
    [{| response := success; fr_id := Some "a"; fr_name := Some "log_question_start" |}].
Proof.
  apply (proj2 (proj2 (proj1 (tool_responses_flushed_together hometown)))
           [call "a" "log_question_start"
              {[ "question" := Js.Str "Tell me about your hometown" ]}]).
  - reflexivity.
  - discriminate.
  - exists tt. reflexivity.
Defined.

(** ** No validation *)


Lemma handled_call_logs fc :
  useAltairAI_readable fc = true ->
  useAltairAI_handled fc = true ->
  console (run (useAltairAI.logCall fc)).1 <> [].
Proof.
  unfold useAltairAI_readable, useAltairAI_handled, run, useAltairAI.logCall.
  intros Hr Hh. handler_cases; one_name.
Qed.





(** ** Messages without calls *)

(** C9, as stated, fails for the hook: an empty list of calls passes the
    [!toolCall.functionCalls] guard and the hook logs its banner line. *)
Lemma empty_batch_is_logged_by_the_hook :
  ~ ignored_silently useAltairAI.onToolCall.
Proof.
  intros H. specialize (H (batch []) (or_intror eq_refl)). discriminate H.
Qed.

Lemma AltairComponent2_ignored_silently : ignored_silently AltairComponent2.onToolCall.
Proof. intros [calls] [H | H]; simpl in H; by subst. Qed.

Lemma AltairComponent3_ignored_silently : ignored_silently AltairComponent3.onToolCall.
Proof. intros [calls] [H | H]; simpl in H; by subst. Qed.

(** C9, amended: a message whose [functionCalls] is missing leaves no trace in
    any handler; an empty list arms no timer and sets no state anywhere, and
    leaves no trace in the two component revisions, but the hook writes one
    console line for it, the banner with an empty list of names. *)
Theorem message_without_calls :
  ignored_silently AltairComponent3.onToolCall /\
  ignored_silently AltairComponent2.onToolCall /\
  run (useAltairAI.onToolCall missing) = (no_effects, Normal tt) /\
  run (useAltairAI.onToolCall (batch [])) =
    ({| console := [[Js.Str "[ALTAIR] Received tool calls:"; Js.Array []]];
        jsonString := [];
        timers := [] |}, Normal tt).
Proof.
  split; [apply AltairComponent3_ignored_silently|].
  split; [apply AltairComponent2_ignored_silently|].
  split; reflexivity.
Qed.

(** The amended C9 at the two messages without calls. *)
Lemma missing_calls_ignored :
  run (AltairComponent3.onToolCall missing) = (no_effects, Normal tt) /\
  run (AltairComponent3.onToolCall (batch [])) = (no_effects, Normal tt).
Proof.
  split.
  - apply (proj1 message_without_calls missing). by left.
  - apply (proj1 message_without_calls (batch [])). by right.
Defined.

(** ** IEEE comparisons *)

Lemma SFcompare_antisym x y :
  SFcompare y x = option_map CompOpp (SFcompare x y).
Proof.
  destruct x as [sx|sx| |sx mx ex], y as [sy|sy| |sy my ey]; simpl; try done;
    try (by destruct sx); try (by destruct sy); try (by destruct sx, sy).
  destruct sx, sy; simpl; try done;
    rewrite (Z.compare_antisym ex ey); destruct (ex ?= ey); simpl; try done;
    by rewrite (Pos.compare_cont_antisym mx my Eq).
Qed.

Lemma SFcompare_refl x : x <> S754_nan -> SFcompare x x = Some Eq.
Proof.
  destruct x as [s|s| |s m e]; simpl; try done; destruct s; try done;
    intros _; rewrite Z.compare_refl; simpl; by rewrite ?Pos.compare_cont_refl.
Qed.

Lemma SFcompare_Some x y :
  x <> S754_nan -> y <> S754_nan -> exists c, SFcompare x y = Some c.
Proof. destruct x, y; simpl; try done; eauto. Qed.

Lemma is_nan_false x : PrimFloat.is_nan x = false <-> Prim2SF x <> S754_nan.
Proof.
  unfold PrimFloat.is_nan. rewrite FloatAxioms.eqb_spec. unfold SFeqb. split.
  - intros H Hn. rewrite Hn in H. done.
  - intros H. by rewrite SFcompare_refl.
Qed.

Lemma is_nan_true x : PrimFloat.is_nan x = true <-> Prim2SF x = S754_nan.
Proof.
  split.
  - intros H. destruct (Prim2SF x) eqn:E; try done;
      assert (PrimFloat.is_nan x = false) by (apply is_nan_false; by rewrite E);
      congruence.
  - intros H. unfold PrimFloat.is_nan. rewrite FloatAxioms.eqb_spec, H. done.
Qed.

Lemma ltb_false_leb x y :
  PrimFloat.is_nan x = false -> PrimFloat.is_nan y = false ->
  PrimFloat.ltb x y = false -> PrimFloat.leb y x = true.
Proof.
  rewrite !is_nan_false, ltb_spec, leb_spec. unfold SFltb, SFleb.
  intros Hx Hy. rewrite (SFcompare_antisym (Prim2SF x) (Prim2SF y)).
  destruct (SFcompare_Some _ _ Hx Hy) as [c ->]. by destruct c.
Qed.

Lemma ltb_leb x y : PrimFloat.ltb x y = true -> PrimFloat.leb x y = true.
Proof.
  rewrite ltb_spec, leb_spec. unfold SFltb, SFleb.
  by destruct (SFcompare (Prim2SF x) (Prim2SF y)) as [[]|].
Qed.

(** ** Rounding never makes a NaN *)

Lemma shr_1_nonneg mrs : 0 <= shr_m mrs -> 0 <= shr_m (shr_1 mrs).
Proof. destruct mrs as [[|[]|[]] r s]; simpl; lia. Qed.

Lemma iter_shr_1_nonneg p mrs :
  0 <= shr_m mrs -> 0 <= shr_m (SpecFloat.iter_pos shr_1 p mrs).
Proof.
  revert mrs. induction p as [p IH|p IH|]; intros mrs H; simpl.
  - by apply IH, IH, shr_1_nonneg.
  - by apply IH, IH.
  - by apply shr_1_nonneg.
Qed.

Lemma shr_fexp_nonneg m e l :
  0 <= m -> 0 <= shr_m (shr_fexp prec emax m e l).1.
Proof.
  intros H. unfold shr_fexp, shr.
  assert (0 <= shr_m (shr_record_of_loc m l)) by (by destruct l as [|[]]).
  destruct (fexp prec emax (Zdigits2 m + e) - e); simpl; try done.
  by apply iter_shr_1_nonneg.
Qed.

Lemma round_nearest_even_nonneg m l : 0 <= m -> 0 <= round_nearest_even m l.
Proof.
  intros H. destruct l as [|[]]; simpl; try done; try lia.
  destruct (Z.even m); lia.
Qed.

Lemma binary_round_aux_not_nan s m e l :
  0 <= m -> binary_round_aux prec emax s m e l <> S754_nan.
Proof.
  intros H. unfold binary_round_aux.
  pose proof (shr_fexp_nonneg m e l H) as H1.
  destruct (shr_fexp prec emax m e l) as [mrs' e']. simpl in H1.
  pose proof (shr_fexp_nonneg _ e' loc_Exact
                (round_nearest_even_nonneg _ (loc_of_shr_record mrs') H1)) as H2.
  destruct (shr_fexp prec emax _ e' loc_Exact) as [mrs'' e'']. simpl in H2.
  destruct (shr_m mrs''); try done; try lia. by destruct (e'' <=? emax - prec).
Qed.

Lemma mul_finite_not_nan x y s m e :
  PrimFloat.is_nan x = false ->
  Prim2SF y = S754_finite s m e ->
  PrimFloat.is_nan (x * y) = false.
Proof.
  rewrite !is_nan_false, mul_spec. intros Hx ->.
  unfold SF64mul. destruct (Prim2SF x) as [sx|sx| |sx mx ex]; simpl; try done.
  by apply binary_round_aux_not_nan.
Qed.

Lemma mul_nan x y : PrimFloat.is_nan x = true -> PrimFloat.is_nan (x * y) = true.
Proof. rewrite !is_nan_true, mul_spec. by intros ->. Qed.

Lemma Math_max_nan a b :
  PrimFloat.is_nan a = true -> Js.Math_max a b = PrimFloat.nan.
Proof. unfold Js.Math_max. by intros ->. Qed.

(** ** The volume indicator *)

(** C10, as stated, fails: a NaN volume gives a NaN width, which is in no range. *)
Lemma nan_volume_width_not_in_range : ~ width_always_in_range.
Proof. intros H. destruct (H PrimFloat.nan) as [H5 _]. discriminate H5. Qed.

(** C10, amended: the width is [min(max(100 v, 5), 100)]; for every volume
    that is a number it lies between 5 and 100, whatever the volume's range,
    and for a NaN volume it is NaN. *)
Theorem volume_width_clamped volume :
  AudioControlTray.volumeWidth volume
    = Js.Math_min (Js.Math_max (volume * 100) 5) 100 /\
  (PrimFloat.is_nan volume = false ->
   in_range (AudioControlTray.volumeWidth volume)) /\
  (PrimFloat.is_nan volume = true ->
   AudioControlTray.volumeWidth volume = PrimFloat.nan).
Proof.
  split; [done|]. unfold AudioControlTray.volumeWidth. split.
  - intros Hv.
    assert (PrimFloat.is_nan (volume * 100) = false) as Hx
      by (by apply (mul_finite_not_nan volume 100 false 7036874417766400 (-46))).
    unfold Js.Math_max. rewrite Hx. change (PrimFloat.is_nan 5) with false. simpl.
    destruct (PrimFloat.ltb (volume * 100) 5) eqn:H5; [by split|].
    unfold Js.Math_min. rewrite Hx. change (PrimFloat.is_nan 100) with false. simpl.
    destruct (PrimFloat.ltb 100 (volume * 100)) eqn:H100; [by split|].
    split; by apply ltb_false_leb.
  - intros Hv. by rewrite (Math_max_nan _ _ (mul_nan _ _ Hv)).
Qed.

(** The amended C10 at a volume far above the nominal range. *)
Lemma loud_volume_width_in_range :
  in_range (AudioControlTray.volumeWidth 7).
Proof. apply (proj1 (proj2 (volume_width_clamped 7))). reflexivity. Defined.

(** ** The greeting *)

(** C8, as stated, fails: no effect subscribes to a ["ready"] event, and the
    greeting waits behind a fixed sleep. *)
Lemma greeting_waits_a_fixed_delay :
  ~ greets_on_ready (Greeting.useAltairAI true true true) /\
  ~ greets_on_ready [Greeting.AltairComponent_startGreeting].
Proof.
  split; intros [_ H].
  - specialize (H (Greeting.useAltairAI_sendGreeting true true)
                  (list_elem_of_further _ _ _ (list_elem_of_here _ _)) true).
    discriminate H.
  - specialize (H Greeting.AltairComponent_startGreeting (list_elem_of_here _ _) true).
    discriminate H.
Qed.

(** C8, amended: the hook subscribes to ["toolcall"] alone; its greeting effect
    sends nothing at once, and when the client is connected and the hook
    initialised it sleeps 2000 ms and then sends the greeting if the session is
    there; the component revision sleeps 1500 ms on mount and does the same. *)
Theorem greeting_after_fixed_sleep (connected isInitialized client session : bool) :
  (forall r e, r ∈ Greeting.useAltairAI connected isInitialized client ->
               e ∈ Greeting.subscriptions r -> e = "toolcall") /\
  (forall r, r ∈ Greeting.useAltairAI connected isInitialized client ->
             Greeting.immediate_sends r = []) /\
  Greeting.delayed_sends session
      (Greeting.useAltairAI_sendGreeting connected isInitialized)
    = (if connected && isInitialized && session
       then [(2000, "Hello, I'm ready to begin the IELTS speaking test.")]
       else []) /\
  Greeting.immediate_sends Greeting.AltairComponent_startGreeting = [] /\
  Greeting.delayed_sends session Greeting.AltairComponent_startGreeting
    = (if session
       then [(1500, "Hello, I'm ready to begin the IELTS speaking test. Please start speaking.")]
       else []).
Proof.
  repeat split.
  - intros r e Hr He. unfold Greeting.useAltairAI in Hr.
    repeat (apply elem_of_cons in Hr as [-> | Hr]);
      [| |by apply not_elem_of_nil in Hr];
      destruct connected, isInitialized, client; simpl in He;
      repeat (apply elem_of_cons in He as [-> | He]); try done;
      by apply not_elem_of_nil in He.
  - intros r Hr. unfold Greeting.useAltairAI in Hr.
    repeat (apply elem_of_cons in Hr as [-> | Hr]);
      [| |by apply not_elem_of_nil in Hr];
      by destruct connected, isInitialized, client.
  - by destruct connected, isInitialized, session.
  - by destruct session.
Qed.

(** ** The audio control tray *)

Import AudioControlTray.

Lemma commit_invariant s :
  AudioRecorder.listeners (audioRecorder s) = [] \/
  AudioRecorder.listeners (audioRecorder s) = tray_listeners ->
  tray_invariant (commit s).
Proof.
  intros Hl. unfold tray_invariant, commit, effect, cleanup.
  destruct s as [c m v d [rec ls] sent]. simpl in *.
  destruct Hl as [-> | ->]; destruct c, m; simpl; split; try done.
Qed.

Lemma invariant_listeners s :
  tray_invariant s ->
  AudioRecorder.listeners (audioRecorder s) = [] \/
  AudioRecorder.listeners (audioRecorder s) = tray_listeners.
Proof. intros [-> _]. destruct (connected s && negb (muted s)); auto. Qed.

Lemma deliver_frame base64 v xs s :
  connected (fold_left (deliver base64 v) xs s) = connected s /\
  muted (fold_left (deliver base64 v) xs s) = muted s /\
  deviceAvailable (fold_left (deliver base64 v) xs s) = deviceAvailable s /\
  audioRecorder (fold_left (deliver base64 v) xs s) = audioRecorder s.
Proof.
  revert s. induction xs as [|x xs IH]; intros s; simpl; [done|].
  destruct (IH (deliver base64 v s x)) as (-> & -> & -> & ->).
  unfold deliver. by destruct x.2.
Qed.

Lemma mount_invariant c device : tray_invariant (mount c device).
Proof. unfold tray_invariant, mount, effect. destruct c; simpl; split; done. Qed.

Lemma step_invariant s e : tray_invariant s -> tray_invariant (step s e).
Proof.
  intros Hs. destruct e as [c| |a|base64 v]; simpl.
  - destruct (Bool.eqb c (connected s)); [done|].
    apply commit_invariant. simpl. by apply invariant_listeners.
  - destruct (connected s); [|done].
    apply commit_invariant. simpl. by apply invariant_listeners.
  - done.
  - unfold tray_invariant.
    by destruct (deliver_frame base64 v (AudioRecorder.tick (audioRecorder s)) s)
      as (-> & -> & _ & ->).
Qed.

Lemma reachable_invariant s : reachable s -> tray_invariant s.
Proof.
  induction 1 as [c device|s e _ IH].
  - apply mount_invariant.
  - by apply step_invariant.
Qed.

Lemma tick_when_stopped s :
  tray_invariant s ->
  connected s && negb (muted s) = false ->
  AudioRecorder.tick (audioRecorder s) = [].
Proof.
  intros [Hl Hr] Ha. unfold AudioRecorder.tick.
  destruct (AudioRecorder.recording (audioRecorder s)); [|done].
  rewrite Hr in Ha; done.
Qed.

Lemma disconnected_step s e :
  tray_invariant s ->
  connected s = false ->
  realtimeInput (step s e) = realtimeInput s /\
  AudioRecorder.tick (audioRecorder s) = [] /\
  forall base64 v, step s (Tick base64 v) = s.
Proof.
  intros Hs Hc.
  assert (AudioRecorder.tick (audioRecorder s) = []) as Ht
    by (apply tick_when_stopped; [done|by rewrite Hc]).
  split; [|split; [done|]].
  - destruct e as [c| |a|base64 v]; simpl.
    + destruct (Bool.eqb c (connected s)); [done|].
      unfold commit, effect, cleanup. simpl. by destruct (c && negb (muted s)).
    + by rewrite Hc.
    + done.
    + by rewrite Ht.
  - intros base64 v. simpl. by rewrite Ht.
Qed.

Lemma tick_when_running s base64 v :
  tray_invariant s ->
  AudioRecorder.recording (audioRecorder s) = true ->
  inVolume (step s (Tick base64 v)) = v /\
  realtimeInput (step s (Tick base64 v)) =
    realtimeInput s ++ [[{| mimeType := "audio/pcm;rate=16000"; chunk_data := base64 |}]].
Proof.
  intros [Hl Hr] Hrec. simpl. unfold AudioRecorder.tick.
  rewrite Hrec, Hl, (Hr Hrec). done.
Qed.

(** C2, as stated, fails: muting a running recorder stops it, and the next
    tick delivers no volume. *)
Lemma muting_stops_the_metering : ~ mute_keeps_metering.
Proof.
  intros H.
  destruct (H (mount true true) (reach_mount true true) eq_refl eq_refl eq_refl)
    as (_ & Hrec & _).
  discriminate Hrec.
Qed.

(** C2, amended: while connected, the microphone button mutes by stopping the
    recorder. The effect's clean-up detaches both listeners and the effect
    calls [stop()]: the device is released and a capture tick delivers neither
    a chunk nor a volume, the state stays as it is. A second click attaches
    the listeners again and restarts the recorder, and while it runs every tick
    sends one chunk and delivers the volume. *)
Theorem muting_stops_the_recorder s :
  reachable s ->
  connected s = true ->
  muted s = false ->
  let s' := step s ClickMic in
  let s'' := step s' ClickMic in
  (muted s' = true /\
   AudioRecorder.recording (audioRecorder s') = false /\
   AudioRecorder.listeners (audioRecorder s') = [] /\
   forall base64 v, step s' (Tick base64 v) = s') /\
  (muted s'' = false /\
   AudioRecorder.recording (audioRecorder s'') = deviceAvailable s /\
   AudioRecorder.listeners (audioRecorder s'') = tray_listeners) /\
  (AudioRecorder.recording (audioRecorder s) = true ->
   forall base64 v,
     inVolume (step s (Tick base64 v)) = v /\
     realtimeInput (step s (Tick base64 v)) =
       realtimeInput s ++
       [[{| mimeType := "audio/pcm;rate=16000"; chunk_data := base64 |}]]).
Proof.
  intros Hs Hc Hm. pose proof (reachable_invariant s Hs) as Hi.
  assert (AudioRecorder.listeners (audioRecorder s) = tray_listeners) as Hl
    by (destruct Hi as [-> _]; by rewrite Hc, Hm).
  destruct s as [c m v d [rec ls] sent]. simpl in *. subst c m ls.
  repeat split; simpl; try done; subst rec; done.
Qed.

(** The amended C2 at a tray mounted while connected, the microphone there. *)
Lemma muting_a_running_recorder :
  let s := mount true true in
  let s' := step s ClickMic in
  let s'' := step s' ClickMic in
  (muted s' = true /\
   AudioRecorder.recording (audioRecorder s') = false /\
   AudioRecorder.listeners (audioRecorder s') = [] /\
   forall base64 v, step s' (Tick base64 v) = s') /\
  (muted s'' = false /\
   AudioRecorder.recording (audioRecorder s'') = deviceAvailable s /\
   AudioRecorder.listeners (audioRecorder s'') = tray_listeners) /\
  (AudioRecorder.recording (audioRecorder s) = true ->
   forall base64 v,
     inVolume (step s (Tick base64 v)) = v /\
     realtimeInput (step s (Tick base64 v)) =
       realtimeInput s ++
       [[{| mimeType := "audio/pcm;rate=16000"; chunk_data := base64 |}]]).
Proof.
  apply (muting_stops_the_recorder (mount true true)).
  - apply reach_mount.
  - reflexivity.
  - reflexivity.
Defined.

(** ** The playback engine *)

Lemma enqueue_frames f g p :
  g ∈ AudioPlaybackEngine.queue (AudioPlaybackEngine.enqueue f p) ->
  g ∈ AudioPlaybackEngine.queue p \/ g = f.
Proof.
  unfold AudioPlaybackEngine.enqueue. simpl.
  destruct (_ <? _)%nat.
  - intros H. apply elem_of_app in H as [H | H]; [by left|].
    right. by apply list_elem_of_singleton in H.
  - intros H.
    assert (g ∈ AudioPlaybackEngine.queue p ++ [f]) as H'.
    { destruct (AudioPlaybackEngine.queue p ++ [f]) as [|x xs]; simpl in H;
        [done|by right]. }
    apply elem_of_app in H' as [H' | H']; [by left|].
    right. by apply list_elem_of_singleton in H'.
Qed.

(** Whatever is played was waiting in the queue or came in since. *)
Lemma played_frames es : forall p f,
  f ∈ AudioPlaybackEngine.played (AudioPlaybackEngine.run p es).1 ->
  f ∈ AudioPlaybackEngine.queue p \/ f ∈ AudioPlaybackEngine.enqueued es.
Proof.
  induction es as [|e es IH]; intros p f; simpl.
  - intros H. by apply not_elem_of_nil in H.
  - destruct e as [g| |]; simpl.
    + destruct (AudioPlaybackEngine.run (AudioPlaybackEngine.enqueue g p) es)
        as [os p''] eqn:E. simpl. intros H.
      destruct (IH (AudioPlaybackEngine.enqueue g p) f) as [Hq | He].
      * by rewrite E.
      * apply enqueue_frames in Hq as [Hq | ->]; [by left|right; by left].
      * right. by right.
    + unfold AudioPlaybackEngine.tick.
      destruct (AudioPlaybackEngine.queue p) as [|x rest] eqn:Eq.
      * destruct (AudioPlaybackEngine.run p es) as [os p''] eqn:E. simpl.
        intros H. destruct (IH p f) as [Hq | He]; [by rewrite E| |by right].
        rewrite Eq in Hq. by apply not_elem_of_nil in Hq.
      * destruct (AudioPlaybackEngine.run _ es) as [os p''] eqn:E. simpl.
        intros H. apply elem_of_cons in H as [-> | H]; [left; by left|].
        match type of E with
        | AudioPlaybackEngine.run ?q es = _ =>
            destruct (IH q f) as [Hq | He]; [by rewrite E| |by right]
        end.
        left. by right.
    + destruct (AudioPlaybackEngine.run (AudioPlaybackEngine.interrupted p) es)
        as [os p''] eqn:E. simpl. intros H.
      destruct (IH (AudioPlaybackEngine.interrupted p) f) as [Hq | He];
        [by rewrite E| |by right].
      by apply not_elem_of_nil in Hq.
Qed.

(** C7: an Interrupted signal empties the playback queue in that very step,
    whatever was buffered: the queue has length 0 before any later tick, the
    next tick finds nothing to play, and no frame buffered before the signal
    is ever played after it. *)
Theorem interrupt_flushes_playback_queue p es :
  AudioPlaybackEngine.step p AudioPlaybackEngine.Interrupted
    = ([], AudioPlaybackEngine.interrupted p) /\
  length (AudioPlaybackEngine.queue (AudioPlaybackEngine.interrupted p)) = 0%nat /\
  (AudioPlaybackEngine.tick (AudioPlaybackEngine.interrupted p)).1
    = AudioPlaybackEngine.Silence /\
  forall f,
    f ∈ AudioPlaybackEngine.played
          (AudioPlaybackEngine.run (AudioPlaybackEngine.interrupted p) es).1 ->
    f ∈ AudioPlaybackEngine.enqueued es.
Proof.
  repeat split. intros f H.
  destruct (played_frames es _ f H) as [Hq | He]; [|done].
  by apply not_elem_of_nil in Hq.
Qed.

Lemma five_buffered_flushed :
  length (AudioPlaybackEngine.queue five_buffered) = 5%nat /\
  length (AudioPlaybackEngine.queue
            (AudioPlaybackEngine.step five_buffered
               AudioPlaybackEngine.Interrupted).2) = 0%nat.
Proof. split; reflexivity. Qed.

(** ** The console of a batch *)

Lemma useAltairAI_logCall_appends fc w :
  (useAltairAI.logCall fc w).1 =
    {| console := console w ++ useAltairAI_lines fc;
       jsonString := jsonString w;
       timers := timers w |} /\
  (useAltairAI.logCall fc w).2 = (Handler.run (useAltairAI.logCall fc)).2.
Proof.
  unfold useAltairAI_lines, Handler.run, useAltairAI.logCall.
  destruct w as [c j t].
  handler_cases; rewrite ?app_nil_r, <- ?app_assoc; done.
Qed.

Lemma unreadable_lines fc :
  useAltairAI_readable fc = false -> useAltairAI_lines fc = [].
Proof.
  unfold useAltairAI_readable, useAltairAI_lines, Handler.run, useAltairAI.logCall.
  intros H. handler_cases; one_name.
Qed.

Lemma lines_at_most_two fc : (length (useAltairAI_lines fc) <= 2)%nat.
Proof.
  unfold useAltairAI_lines, Handler.run, useAltairAI.logCall.
  handler_cases; lia.
Qed.

Lemma useAltairAI_forEach_console calls : forall w,
  (forEach calls useAltairAI.logCall w).1 =
    {| console := console w ++ flat_map useAltairAI_lines (readable_prefix calls);
       jsonString := jsonString w;
       timers := timers w |}.
Proof.
  induction calls as [|fc calls IH]; intros w; simpl.
  - rewrite app_nil_r. by destruct w.
  - unfold Handler.bind.
    destruct (useAltairAI_logCall_appends fc w) as [Hw _].
    destruct (useAltairAI_readable fc) eqn:Hr.
    + destruct (useAltairAI_logCall_readable fc w Hr) as [w' Hw'].
      rewrite Hw' in *. simpl in Hw. subst w'. rewrite IH. simpl.
      by rewrite app_assoc.
    + destruct (useAltairAI_logCall_unreadable fc w Hr) as (w' & e & Hw').
      rewrite Hw' in *. simpl in *. subst w'.
      by rewrite (unreadable_lines fc Hr).
Qed.

(** X4. The hook's console after a batch: the banner with the names of all
    calls, then the lines of the calls in batch order, up to the first call it
    cannot read -- that call and every later one leave nothing. A call leaves
    at most two lines. *)
Theorem hook_console_in_batch_order calls :
  console (Handler.run (useAltairAI.onToolCall (batch calls))).1 =
    useAltairAI_banner calls
    :: flat_map useAltairAI_lines (readable_prefix calls) /\
  (forall fc, (length (useAltairAI_lines fc) <= 2)%nat) /\
  (forallb useAltairAI_readable calls = true -> readable_prefix calls = calls).
Proof.
  split; [|split].
  - unfold Handler.run, useAltairAI.onToolCall. simpl.
    rewrite bind_eq. simpl. rewrite bind_eq.
    match goal with |- context [forEach calls useAltairAI.logCall ?w] =>
      pose proof (useAltairAI_forEach_console calls w) as Hf;
      destruct (forEach calls useAltairAI.logCall w) as [w' [[]|e]]
    end; simpl in *; subst w'; [|done].
    by destruct calls.
  - apply lines_at_most_two.
  - induction calls as [|fc calls IH]; simpl; [done|].
    intros H. apply andb_true_iff in H as [-> H]. by rewrite IH.
Qed.

(** X4 at a batch whose second call comes without arguments: the first call
    is logged, the third is not. *)
Lemma console_stops_at_unreadable_call :
  readable_prefix
    [call "a" "log_question_end" {[ "question" := Js.Str "Why?" ]};
     {| id := Some "b"; name := Some "log_question_end"; args := None |};
     call "c" "log_question_end" {[ "question" := Js.Str "How?" ]}]
  = [call "a" "log_question_end" {[ "question" := Js.Str "Why?" ]}] /\
  readable_prefix [call "a" "log_question_end" {[ "question" := Js.Str "Why?" ]}]
  = [call "a" "log_question_end" {[ "question" := Js.Str "Why?" ]}].
Proof.
  split; [reflexivity|].
  apply (proj2 (proj2 (hook_console_in_batch_order
          [call "a" "log_question_end" {[ "question" := Js.Str "Why?" ]}]))).
  reflexivity.
Defined.

(** ** The chart *)

Lemma useAltairAI_logCall_jsonString fc w :
  jsonString (useAltairAI.logCall fc w).1 = jsonString w.
Proof. unfold useAltairAI.logCall. handler_cases. Qed.

Lemma AltairComponent2_logCall_jsonString fc w :
  jsonString (AltairComponent2.logCall fc w).1 = jsonString w.
Proof. unfold AltairComponent2.logCall. handler_cases. Qed.

Lemma AltairComponent3_logCall_jsonString fc w :
  jsonString (AltairComponent3.logCall fc w).1 = jsonString w.
Proof. unfold AltairComponent3.logCall. handler_cases. Qed.

Lemma forEach_jsonString {A} (f : A -> M unit) (xs : list A) :
  (forall x w, jsonString (f x w).1 = jsonString w) ->
  forall w, jsonString (forEach xs f w).1 = jsonString w.
Proof.
  intros Hf. induction xs as [|x xs IH]; intros w; simpl; [done|].
  unfold Handler.bind. specialize (Hf x w).
  destruct (f x w) as [w' [[]|e]]; simpl in *; [|done].
  by rewrite IH.
Qed.

(** The chart step of the two component revisions, after the logging pass. *)
Lemma chart_step calls (logCall : FunctionCall -> M unit) w :
  jsonString w = [] ->
  let r :=
    (match chart_call calls with
     | Some fc => str ← prop (args fc) "json_graph"; setJSONString str
     | None => mret tt
     end ;; if negb (length calls =? 0)%nat
            then setTimeout (respond (batch calls)) 200 else mret tt) w in
  match chart_call calls, r.2 with
  | Some fc, Normal _ =>
      exists o, args fc = Some o /\ jsonString r.1 = [Js.get o "json_graph"]
  | _, _ => jsonString r.1 = []
  end.
Proof.
  intros Hw. destruct (chart_call calls) as [fc|]; simpl.
  - destruct (args fc) as [o|] eqn:Ha; handler_cases.
    + exists o. by rewrite Hw.
    + exists o. by rewrite Hw.
  - handler_cases.
Qed.

Lemma AltairComponent3_chart calls :
  let r := Handler.run (AltairComponent3.onToolCall (batch calls)) in
  match chart_call calls, r.2 with
  | Some fc, Normal _ =>
      exists o, args fc = Some o /\ jsonString r.1 = [Js.get o "json_graph"]
  | _, _ => jsonString r.1 = []
  end.
Proof.
  unfold Handler.run, AltairComponent3.onToolCall. simpl.
  rewrite bind_eq.
  pose proof (forEach_jsonString AltairComponent3.logCall calls
                AltairComponent3_logCall_jsonString no_effects) as Hf.
  destruct (forEach calls AltairComponent3.logCall no_effects) as [w' [[]|e]];
    simpl in Hf.
  - apply (chart_step calls AltairComponent3.logCall w' Hf).
  - simpl. by destruct (chart_call calls).
Qed.

Lemma AltairComponent2_chart calls :
  let r := Handler.run (AltairComponent2.onToolCall (batch calls)) in
  match chart_call calls, r.2 with
  | Some fc, Normal _ =>
      exists o, args fc = Some o /\ jsonString r.1 = [Js.get o "json_graph"]
  | _, _ => jsonString r.1 = []
  end.
Proof.
  unfold Handler.run, AltairComponent2.onToolCall. simpl.
  rewrite bind_eq.
  pose proof (forEach_jsonString AltairComponent2.logCall calls
                AltairComponent2_logCall_jsonString no_effects) as Hf.
  destruct (forEach calls AltairComponent2.logCall no_effects) as [w' [[]|e]];
    simpl in Hf.
  - apply (chart_step calls AltairComponent2.logCall w' Hf).
  - simpl. by destruct (chart_call calls).
Qed.

Lemma useAltairAI_never_sets_chart toolCall :
  jsonString (Handler.run (useAltairAI.onToolCall toolCall)).1 = [].
Proof.
  unfold Handler.run, useAltairAI.onToolCall.
  destruct (functionCalls toolCall) as [calls|]; [|done].
  rewrite bind_eq. simpl. rewrite bind_eq.
  match goal with |- context [forEach calls useAltairAI.logCall ?w] =>
    pose proof (forEach_jsonString useAltairAI.logCall calls
                  useAltairAI_logCall_jsonString w) as Hf;
    destruct (forEach calls useAltairAI.logCall w) as [w' [[]|e]]
  end; simpl in *; [|done].
  by destruct calls.
Qed.

(** X5. Of the [render_altair] calls of a batch the component revisions render
    one: when the handler gets through the batch, [setJSONString] is called
    exactly once, with the [json_graph] of the first such call (whatever value
    it holds), and not at all when the batch has no such call. The hook never
    calls it. *)
Theorem chart_from_first_render_call calls :
  (forall fc,
     chart_call calls = Some fc ->
     (completes (AltairComponent3.onToolCall (batch calls)) ->
      exists o, args fc = Some o /\
        jsonString (Handler.run (AltairComponent3.onToolCall (batch calls))).1
          = [Js.get o "json_graph"]) /\
     (completes (AltairComponent2.onToolCall (batch calls)) ->
      exists o, args fc = Some o /\
        jsonString (Handler.run (AltairComponent2.onToolCall (batch calls))).1
          = [Js.get o "json_graph"])) /\
  (chart_call calls = None ->
   jsonString (Handler.run (AltairComponent3.onToolCall (batch calls))).1 = [] /\
   jsonString (Handler.run (AltairComponent2.onToolCall (batch calls))).1 = []) /\
  jsonString (Handler.run (useAltairAI.onToolCall (batch calls))).1 = [].
Proof.
  pose proof (AltairComponent3_chart calls) as H3.
  pose proof (AltairComponent2_chart calls) as H2.
  simpl in H3, H2. split; [|split].
  - intros fc Hfc. rewrite Hfc in H3, H2. split; intros [[] Hok].
    + by rewrite Hok in H3.
    + by rewrite Hok in H2.
  - intros Hn. rewrite Hn in H3, H2. done.
  - apply useAltairAI_never_sets_chart.
Qed.

(** X5 at a batch with two chart calls: the first one is rendered. *)
Lemma first_of_two_charts_rendered :
  exists o, args (call "a" "render_altair" {[ "json_graph" := Js.Str "{}" ]}) = Some o /\
    jsonString (Handler.run (AltairComponent3.onToolCall (batch two_charts))).1
      = [Js.get o "json_graph"].
Proof.
  apply (proj1 (proj1 (chart_from_first_render_call two_charts)
                  (call "a" "render_altair" {[ "json_graph" := Js.Str "{}" ]})
                  eq_refl)).
  exists tt. reflexivity.
Defined.

(** ** One chunk per tick *)

(** X6. However often the microphone was toggled and the session reconnected,
    the tray's registrations never pile up: a capture tick of a running
    recorder hands exactly one chunk to the client and delivers the volume
    once, and a tick of a stopped recorder changes nothing. *)
Theorem one_chunk_per_tick s base64 v :
  AudioControlTray.reachable s ->
  AudioControlTray.realtimeInput
      (AudioControlTray.step s (AudioControlTray.Tick base64 v))
    = AudioControlTray.realtimeInput s ++
      (if AudioRecorder.recording (AudioControlTray.audioRecorder s)
       then [[{| AudioControlTray.mimeType := "audio/pcm;rate=16000";
                 AudioControlTray.chunk_data := base64 |}]]
       else []) /\
  AudioControlTray.inVolume
      (AudioControlTray.step s (AudioControlTray.Tick base64 v))
    = (if AudioRecorder.recording (AudioControlTray.audioRecorder s)
       then v else AudioControlTray.inVolume s).
Proof.
  intros Hs. apply reachable_invariant in Hs.
  destruct (AudioRecorder.recording (AudioControlTray.audioRecorder s)) eqn:Hrec.
  - destruct (tick_when_running s base64 v Hs Hrec) as [-> ->]. done.
  - simpl. unfold AudioRecorder.tick. rewrite Hrec. simpl.
    by rewrite app_nil_r.
Qed.

(** X6 after muting, unmuting, a disconnect and a reconnect. *)
Lemma one_chunk_after_toggles :
  let s := AudioControlTray.run (AudioControlTray.mount true true)
             [AudioControlTray.ClickMic; AudioControlTray.ClickMic;
              AudioControlTray.Connection false; AudioControlTray.Connection true] in
  AudioControlTray.realtimeInput
      (AudioControlTray.step s (AudioControlTray.Tick "AAAA" 0.5))
    = AudioControlTray.realtimeInput s ++
      (if AudioRecorder.recording (AudioControlTray.audioRecorder s)
       then [[{| AudioControlTray.mimeType := "audio/pcm;rate=16000";
                 AudioControlTray.chunk_data := "AAAA" |}]]
       else []) /\
  AudioControlTray.inVolume
      (AudioControlTray.step s (AudioControlTray.Tick "AAAA" 0.5))
    = (if AudioRecorder.recording (AudioControlTray.audioRecorder s)
       then 0.5%float else AudioControlTray.inVolume s).
Proof.
  apply (one_chunk_per_tick
           (AudioControlTray.run (AudioControlTray.mount true true)
              [AudioControlTray.ClickMic; AudioControlTray.ClickMic;
               AudioControlTray.Connection false; AudioControlTray.Connection true])).
  simpl. repeat apply reach_step. apply reach_mount.
Defined.

(** ** The chat layout *)

Lemma hook_mount_greeting c : Forall greeting_sleep (AltairHook.pending (AltairHook.mount c)).
Proof. destruct c; simpl; repeat constructor; intros []; reflexivity. Qed.

Lemma hook_step_greeting h e :
  Forall greeting_sleep (AltairHook.pending h) ->
  Forall greeting_sleep (AltairHook.pending (AltairHook.step h e)).
Proof.
  intros H. unfold AltairHook.step.
  destruct (AltairHook.mounted h); [|done].
  destruct e as [c|]; [|done].
  destruct (Bool.eqb c (AltairHook.connected h)); [done|].
  simpl. apply Forall_app. split; [done|].
  destruct c, (AltairHook.isInitialized h); simpl; repeat constructor;
    intros []; reflexivity.
Qed.

Lemma greeting_not_blank : JsString.blank greeting = false.
Proof. reflexivity. Qed.

Lemma handleSendMessage_invariant random now s :
  chat_invariant s -> chat_invariant (ChatLayout.handleSendMessage random now s).
Proof.
  intros (Hm & Hs & Hsub & Hh). unfold ChatLayout.handleSendMessage.
  destruct (JsString.blank (ChatLayout.textInput s)) eqn:Hb; [by repeat split|].
  split; [|split; [|split]]; simpl; [| | |done].
  - apply Forall_app. split; [done|]. by repeat constructor.
  - apply Forall_app. split; [done|]. by repeat constructor.
  - rewrite map_app. by apply sublist_app.
Qed.

Lemma greet_invariant s sleep session :
  chat_invariant s ->
  greeting_sleep sleep ->
  chat_invariant (ChatLayout.greet (Greeting.resume sleep session) s).
Proof.
  intros (Hm & Hs & Hsub & Hh) Hsl. rewrite (Hsl session).
  unfold chat_invariant. destruct session; simpl.
  - repeat split; try done.
    + apply Forall_app. split; [done|]. by repeat constructor.
    + by apply sublist_inserts_r.
  - rewrite app_nil_r. by repeat split.
Qed.

Lemma chat_step_invariant s e :
  chat_invariant s -> chat_invariant (ChatLayout.step s e).
Proof.
  intros Hs. pose proof Hs as (Hm & Hsent & Hsub & Hh).
  destruct e; simpl.
  - unfold chat_invariant. simpl. repeat split; try done.
    by apply hook_step_greeting.
  - destruct (AltairHook.pending (ChatLayout.hook s) !! ChatLayout.resumed s)
      as [sleep|] eqn:E; [|done].
    apply greet_invariant; [done|].
    by apply (proj1 (Forall_forall _ _) Hh), (list_elem_of_lookup_2 _ _ _ E).
  - by destruct (ChatLayout.connected s).
  - destruct (ChatLayout.connected s); [|done].
    unfold ChatLayout.handleKeyDown.
    destruct (_ && _); simpl; [by apply handleSendMessage_invariant|done].
  - destruct (_ && _); [by apply handleSendMessage_invariant|done].
  - by destruct (ChatLayout.connected s).
  - destruct (ChatLayout.showSidebar s); [|done].
    unfold chat_invariant. simpl.
    repeat split; first [done|by constructor|apply sublist_nil_l].
  - by destruct (ChatLayout.showSidebar s).
  - by destruct (ChatLayout.messages s).
  - done.
  - by destruct (ChatLayout.showLogs s).
  - by destruct (ChatLayout.showLogs s).
Qed.

Lemma chat_reachable_invariant s : ChatLayout.reachable s -> chat_invariant s.
Proof.
  induction 1 as [c|s e _ IH].
  - unfold chat_invariant. simpl. repeat split; try constructor.
    apply hook_mount_greeting.
  - by apply chat_step_invariant.
Qed.

(** X7. In every state the chat layout can reach, every message on screen has
    the user's role and a content that is not blank -- no assistant message is
    ever added -- nothing blank was ever sent to the client, by the layout or
    by the hook it runs, and the contents of the messages on screen were all
    sent to the client, in the order shown. *)
Theorem chat_messages_are_sent_user_texts s :
  ChatLayout.reachable s ->
  Forall (fun m => ChatLayout.role m = ChatLayout.user /\
                   JsString.blank (ChatLayout.content m) = false)
         (ChatLayout.messages s) /\
  Forall (fun t => JsString.blank t = false) (ChatLayout.sent s) /\
  map ChatLayout.content (ChatLayout.messages s) `sublist_of` ChatLayout.sent s.
Proof.
  intros H. destruct (chat_reachable_invariant s H) as (? & ? & ? & _). done.
Qed.

Lemma chat_sent_grows s e :
  chat_invariant s ->
  ChatLayout.sent (ChatLayout.step s e) <> ChatLayout.sent s ->
  (e = ChatLayout.GreetingResumes true /\
   ChatLayout.sent (ChatLayout.step s e) = ChatLayout.sent s ++ [greeting] /\
   ChatLayout.messages (ChatLayout.step s e) = ChatLayout.messages s /\
   ChatLayout.textInput (ChatLayout.step s e) = ChatLayout.textInput s) \/
  (ChatLayout.connected s = true /\
   JsString.blank (ChatLayout.textInput s) = false /\
   exists random now,
     ChatLayout.step s e = ChatLayout.handleSendMessage random now s).
Proof.
  intros (_ & _ & _ & Hh).
  destruct e as [c|session|value|key shiftKey random now|random now| | | | | | |];
    simpl; intros H;
    repeat match type of H with
           | context [if ?b then _ else _] => destruct b eqn:?
           end; simpl in H; try done.
  - left.
    destruct (AltairHook.pending (ChatLayout.hook s) !! ChatLayout.resumed s)
      as [sleep|] eqn:E; [|done].
    assert (greeting_sleep sleep) as Hsl
      by (by apply (proj1 (Forall_forall _ _) Hh), (list_elem_of_lookup_2 _ _ _ E)).
    rewrite (Hsl session) in *.
    destruct session; simpl in *; [done|]. by rewrite app_nil_r in H.
  - right. unfold ChatLayout.handleKeyDown in *.
    destruct (_ && _); simpl in *; [|done].
    split; [done|]. split; [|by exists random, now].
    unfold ChatLayout.handleSendMessage in H.
    by destruct (JsString.blank (ChatLayout.textInput s)).
  - right. apply andb_true_iff in Heqb as [-> Hb]. apply negb_true_iff in Hb.
    split; [done|]. split; [done|]. by exists random, now.
Qed.

(** X8. What the client is sent through the chat layout is either the hook's
    greeting, when one of its sleeps is over and the session is there, or the
    user's input: the layout itself sends only while the session is connected
    and the input is not blank, and then it sends the input as typed
    (untrimmed), appends one user message with that content, and empties the
    input. The greeting touches neither the messages nor the input. *)
Theorem chat_sends_greeting_or_input s e :
  ChatLayout.reachable s ->
  ChatLayout.sent (ChatLayout.step s e) <> ChatLayout.sent s ->
  (e = ChatLayout.GreetingResumes true /\
   ChatLayout.sent (ChatLayout.step s e) = ChatLayout.sent s ++ [greeting] /\
   ChatLayout.messages (ChatLayout.step s e) = ChatLayout.messages s /\
   ChatLayout.textInput (ChatLayout.step s e) = ChatLayout.textInput s) \/
  (ChatLayout.connected s = true /\
   JsString.blank (ChatLayout.textInput s) = false /\
   ChatLayout.sent (ChatLayout.step s e)
     = ChatLayout.sent s ++ [ChatLayout.textInput s] /\
   map ChatLayout.content (ChatLayout.messages (ChatLayout.step s e))
     = map ChatLayout.content (ChatLayout.messages s) ++ [ChatLayout.textInput s] /\
   ChatLayout.textInput (ChatLayout.step s e) = "").
Proof.
  intros Hs H.
  destruct (chat_sent_grows s e (chat_reachable_invariant s Hs) H)
    as [Hg | (Hc & Hb & random & now & ->)]; [by left|right].
  unfold ChatLayout.handleSendMessage. rewrite Hb. simpl.
  by rewrite map_app.
Qed.

(** X8 at a click on the send button with ["  Hi "] typed, and at the greeting
    of a layout mounted while connected. *)
Lemma hi_is_sent_untrimmed :
  let s := ChatLayout.step (ChatLayout.initial true) (ChatLayout.Change "  Hi ") in
  ChatLayout.sent (ChatLayout.step s (ChatLayout.ClickSend "0.42" 1700000000000))
    = ["  Hi "] /\
  ChatLayout.sent (ChatLayout.step s (ChatLayout.GreetingResumes true))
    = [greeting].
Proof.
  split.
  - destruct (chat_sends_greeting_or_input
                (ChatLayout.step (ChatLayout.initial true) (ChatLayout.Change "  Hi "))
                (ChatLayout.ClickSend "0.42" 1700000000000))
      as [(He & _) | (_ & _ & Hsent & _)].
    + apply ChatLayout.reach_step, ChatLayout.reach_initial.
    + simpl. discriminate.
    + discriminate He.
    + exact Hsent.
  - destruct (chat_sends_greeting_or_input
                (ChatLayout.step (ChatLayout.initial true) (ChatLayout.Change "  Hi "))
                (ChatLayout.GreetingResumes true))
      as [(_ & Hsent & _) | (_ & _ & Hsent & _)].
    + apply ChatLayout.reach_step, ChatLayout.reach_initial.
    + simpl. discriminate.
    + exact Hsent.
    + simpl in Hsent. discriminate Hsent.
Defined.

(** X7 after the greeting and one message were sent. *)
Lemma one_message_sent :
  let s := ChatLayout.step
             (ChatLayout.step
                (ChatLayout.step (ChatLayout.initial true) (ChatLayout.Change "Hello"))
                (ChatLayout.KeyDown "Enter" false "0.42" 1700000000000))
             (ChatLayout.GreetingResumes true) in
  Forall (fun m => ChatLayout.role m = ChatLayout.user /\
                   JsString.blank (ChatLayout.content m) = false)
         (ChatLayout.messages s) /\
  Forall (fun t => JsString.blank t = false) (ChatLayout.sent s) /\
  map ChatLayout.content (ChatLayout.messages s) `sublist_of` ChatLayout.sent s.
Proof.
  apply (chat_messages_are_sent_user_texts
           (ChatLayout.step
              (ChatLayout.step
                 (ChatLayout.step (ChatLayout.initial true) (ChatLayout.Change "Hello"))
                 (ChatLayout.KeyDown "Enter" false "0.42" 1700000000000))
              (ChatLayout.GreetingResumes true))).
  repeat apply ChatLayout.reach_step. apply ChatLayout.reach_initial.
Defined.

(** X9. Submitting twice in a row sends once: the first submit empties the
    input, so the second finds it blank and changes nothing. This holds for the
    chat layout's [handleSendMessage], for its Enter key, and for the input
    card's [handleSubmit]. *)
Theorem second_submit_changes_nothing :
  (forall r1 n1 r2 n2 s,
     ChatLayout.handleSendMessage r2 n2 (ChatLayout.handleSendMessage r1 n1 s)
     = ChatLayout.handleSendMessage r1 n1 s) /\
  (forall r1 n1 r2 n2 s,
     (ChatLayout.handleKeyDown "Enter" false r2 n2
        (ChatLayout.handleKeyDown "Enter" false r1 n1 s).1).1
     = (ChatLayout.handleKeyDown "Enter" false r1 n1 s).1) /\
  (forall s, ChatInput.handleSubmit (ChatInput.handleSubmit s)
             = ChatInput.handleSubmit s).
Proof.
  assert (forall r1 n1 r2 n2 s,
     ChatLayout.handleSendMessage r2 n2 (ChatLayout.handleSendMessage r1 n1 s)
     = ChatLayout.handleSendMessage r1 n1 s) as H.
  { intros r1 n1 r2 n2 s. unfold ChatLayout.handleSendMessage at 2 3.
    destruct (JsString.blank (ChatLayout.textInput s)) eqn:Hb.
    - unfold ChatLayout.handleSendMessage. by rewrite Hb.
    - done. }
  split; [done|]. split.
  - intros. simpl. apply H.
  - intros s. unfold ChatInput.handleSubmit at 2 3.
    destruct (JsString.blank (ChatInput.textInput s)) eqn:Hb.
    + unfold ChatInput.handleSubmit. by rewrite Hb.
    + done.
Qed.

(** ** The logs viewer *)

Lemma prefix_app sub : forall s post,
  String.prefix sub s = true -> String.prefix sub (s +:+ post) = true.
Proof.
  induction sub as [|c sub IH]; intros s post;
    [intros _; by destruct (s +:+ post)|].
  destruct s as [|c' s]; simpl; [done|].
  destruct (Ascii.ascii_dec c c'); [|done]. apply IH.
Qed.

Lemma includes_app_r s sub post :
  JsString.includes s sub = true -> JsString.includes (s +:+ post) sub = true.
Proof.
  induction s as [|c s IH]; simpl.
  - rewrite orb_false_r. intros H. destruct sub; [|done].
    by destruct post.
  - intros H. apply orb_true_iff in H as [H | H]; apply orb_true_iff.
    + left. by apply (prefix_app sub (String.String c s) post).
    + right. by apply IH.
Qed.

Lemma includes_app_l pre s sub :
  JsString.includes s sub = true -> JsString.includes (pre +:+ s) sub = true.
Proof.
  intros H. induction pre as [|c pre IH]; simpl; [done|].
  rewrite IH. apply orb_true_r.
Qed.

Lemma append_cons c a b :
  String.String c a +:+ b = String.String c (a +:+ b).
Proof. reflexivity. Qed.

Lemma prefix_spec sub : forall s,
  String.prefix sub s = true <-> exists post, s = sub +:+ post.
Proof.
  induction sub as [|c sub IH]; intros s.
  - split; [intros _; by exists s|intros _; by destruct s].
  - destruct s as [|c' s]; simpl.
    + split; [done|]. intros [post H]. by rewrite append_cons in H.
    + destruct (Ascii.ascii_dec c c') as [<-|Hne].
      * rewrite IH. split; intros [post H]; exists post;
          rewrite append_cons in *; congruence.
      * split; [done|]. intros [post H]. rewrite append_cons in H. congruence.
Qed.

Lemma includes_cons c s sub :
  JsString.includes (String.String c s) sub
  = String.prefix sub (String.String c s) || JsString.includes s sub.
Proof. reflexivity. Qed.

Lemma includes_nil sub :
  JsString.includes "" sub = String.prefix sub "".
Proof. unfold JsString.includes. apply orb_false_r. Qed.

(** [includes] finds exactly the substrings. *)
Lemma includes_spec s sub :
  JsString.includes s sub = true <-> exists pre post, s = pre +:+ sub +:+ post.
Proof.
  induction s as [|c s IH].
  - rewrite includes_nil, prefix_spec. split.
    + intros [post H]. by exists "", post.
    + intros (pre & post & H). destruct pre as [|c' pre];
        [by exists post|by rewrite append_cons in H].
  - rewrite includes_cons, orb_true_iff, IH, prefix_spec. split.
    + intros [[post H] | (pre & post & H)].
      * by exists "", post.
      * exists (String.String c pre), post. by rewrite append_cons, H.
    + intros (pre & post & H). destruct pre as [|c' pre].
      * left. by exists post.
      * right. exists pre, post. rewrite append_cons in H. congruence.
Qed.

(** X10. The colour and the emoji of a log line agree on errors and audio: a
    line is red exactly when its emoji is the cross, and blue exactly when it is
    the note. The other emojis fix the colour (outbox green, inbox orange,
    memo grey), but not the other way round, because the emoji alone looks for
    "question". A type that mentions "error" is red with a cross whatever
    stands before or after it. *)
Theorem log_colour_and_emoji type :
  (LogsViewer.getLevelColor type = "text-red-500"
   <-> LogsViewer.getEmoji type = "❌") /\
  (LogsViewer.getLevelColor type = "text-blue-500"
   <-> LogsViewer.getEmoji type = "🎵") /\
  (LogsViewer.getEmoji type = "📤" ->
   LogsViewer.getLevelColor type = "text-green-500") /\
  (LogsViewer.getEmoji type = "📥" ->
   LogsViewer.getLevelColor type = "text-orange-500") /\
  (LogsViewer.getEmoji type = "📝" ->
   LogsViewer.getLevelColor type = "text-slate-400") /\
  (LogsViewer.getLevelColor type = "text-slate-400" ->
   LogsViewer.getEmoji type = "❓" \/ LogsViewer.getEmoji type = "📝") /\
  (JsString.includes type "error" = true ->
   forall pre post,
     LogsViewer.getLevelColor (pre +:+ type +:+ post) = "text-red-500" /\
     LogsViewer.getEmoji (pre +:+ type +:+ post) = "❌").
Proof.
  unfold LogsViewer.getLevelColor, LogsViewer.getEmoji.
  repeat split;
    try (destruct (JsString.includes type "error"),
                  (JsString.includes type "audio"),
                  (JsString.includes type "question"),
                  (JsString.includes type "send"),
                  (JsString.includes type "receive"); intros; auto; discriminate).
  - by rewrite (includes_app_l pre _ _ (includes_app_r type _ post H)).
  - by rewrite (includes_app_l pre _ _ (includes_app_r type _ post H)).
Qed.

(** X10 at a type that mentions an error. *)
Lemma error_anywhere_is_red :
  LogsViewer.getLevelColor ("server." +:+ "client.error" +:+ ".question") = "text-red-500" /\
  LogsViewer.getEmoji ("server." +:+ "client.error" +:+ ".question") = "❌".
Proof.
  apply (proj2 (proj2 (proj2 (proj2 (proj2 (proj2
           (log_colour_and_emoji "client.error")))))) eq_refl
           "server." ".question").
Defined.

(** ** The hook over its life *)

Lemma hook_connections cs : forall s,
  AltairHook.mounted s = true ->
  AltairHook.isInitialized s = true ->
  let s' := AltairHook.run s (map AltairHook.Connection cs) in
  AltairHook.mounted s' = true /\
  AltairHook.isInitialized s' = true /\
  AltairHook.listeners s' = AltairHook.listeners s /\
  AltairHook.configured s' = AltairHook.configured s /\
  exists more,
    AltairHook.pending s' = AltairHook.pending s ++ more /\
    length more = AltairHook.rising (AltairHook.connected s) cs /\
    Forall (fun sl => Greeting.ms sl = 2000 /\
              Greeting.resume sl true =
                [Greeting.Log "[ALTAIR] Sending initial greeting to start AI";
                 Greeting.ClientSend "Hello, I'm ready to begin the IELTS speaking test."])
           more.
Proof.
  induction cs as [|c cs IH]; intros s Hm Hi.
  - simpl. repeat split; try done. exists []. by rewrite app_nil_r.
  - change (AltairHook.run s (map AltairHook.Connection (c :: cs)))
      with (AltairHook.run (AltairHook.step s (AltairHook.Connection c))
              (map AltairHook.Connection cs)).
    assert (AltairHook.step s (AltairHook.Connection c) =
            if Bool.eqb c (AltairHook.connected s) then s
            else AltairHook.apply (Greeting.useAltairAI_sendGreeting c true)
                   (AltairHook.rendered true c s)) as ->
      by (unfold AltairHook.step; by rewrite Hm, Hi).
    destruct (Bool.eqb c (AltairHook.connected s)) eqn:Hc.
    + apply Bool.eqb_prop in Hc. subst c.
      destruct (IH s Hm Hi) as (? & ? & ? & ? & more & ? & Hlen & ?).
      repeat split; try done. exists more. repeat split; try done.
      rewrite Hlen. simpl. by destruct (AltairHook.connected s).
    + set (s1 := AltairHook.apply (Greeting.useAltairAI_sendGreeting c true)
                   (AltairHook.rendered true c s)).
      destruct (IH s1 Hm eq_refl) as (? & ? & Hl & Hcf & more & Hp & Hlen & Hall).
      repeat split; try done.
      * rewrite Hl. unfold s1. simpl. destruct c; simpl; by rewrite app_nil_r.
      * rewrite Hp. unfold s1.
        destruct c, (AltairHook.connected s); simpl in *; try done.
        -- eexists (_ :: more). rewrite <- app_assoc. simpl.
           split; [done|]. split; [by rewrite Hlen|].
           constructor; [done|done].
        -- exists more. by rewrite app_nil_r.
Qed.

(** X11. While the hook is mounted it is registered for ["toolcall"] exactly
    once and has configured the session once, however the connection comes and
    goes; and it starts one greeting sleep of 2000 ms each time [connected]
    turns true -- at mount if connected then, and at every later reconnection.
    No sleep is cancelled by a disconnect, so each one sends the greeting when
    it resumes with a session. *)
Theorem one_greeting_per_connection c cs :
  let s := AltairHook.run (AltairHook.mount c) (map AltairHook.Connection cs) in
  AltairHook.listeners s = ["toolcall"] /\
  AltairHook.configured s = 1%nat /\
  length (AltairHook.pending s)
    = ((if c then 1 else 0) + AltairHook.rising c cs)%nat /\
  Forall (fun sl => Greeting.ms sl = 2000 /\
            Greeting.resume sl true =
              [Greeting.Log "[ALTAIR] Sending initial greeting to start AI";
               Greeting.ClientSend "Hello, I'm ready to begin the IELTS speaking test."])
         (AltairHook.pending s).
Proof.
  destruct (hook_connections cs (AltairHook.mount c))
    as (_ & _ & Hl & Hcf & more & Hp & Hlen & Hall);
    [by destruct c|by destruct c|].
  simpl. rewrite Hl, Hcf, Hp, length_app, Hlen.
  destruct c; simpl; repeat split; try done.
  by constructor.
Qed.

Lemma unmounted_run es : forall s,
  AltairHook.mounted s = false -> AltairHook.run s es = s.
Proof.
  induction es as [|e es IH]; intros s Hm; [done|].
  change (AltairHook.run s (e :: es))
    with (AltairHook.run (AltairHook.step s e) es).
  assert (AltairHook.step s e = s) as -> by (unfold AltairHook.step; by rewrite Hm).
  by apply IH.
Qed.

(** X12. Unmounting the hook takes its ["toolcall"] registration off the
    client and nothing the context does afterwards reaches it; but a greeting
    sleep that was started stays pending: the clean-up cancels no timer. *)
Theorem unmount_unregisters_but_keeps_sleeps c cs es :
  let before := AltairHook.run (AltairHook.mount c) (map AltairHook.Connection cs) in
  let s := AltairHook.step before AltairHook.Unmount in
  AltairHook.listeners s = [] /\
  AltairHook.pending s = AltairHook.pending before /\
  AltairHook.run s es = s.
Proof.
  destruct (hook_connections cs (AltairHook.mount c))
    as (Hm & _ & Hl & _); [by destruct c|by destruct c|].
  simpl. repeat split.
  - unfold AltairHook.step. rewrite Hm. simpl. rewrite Hl. by destruct c.
  - unfold AltairHook.step. by rewrite Hm.
  - apply unmounted_run. unfold AltairHook.step. by rewrite Hm.
Qed.

(** ** Declared and handled tools *)

Lemma name_is_iff fc n : name_is fc n = true <-> name fc = Some n.
Proof.
  split; [apply name_is_true|]. unfold name_is. intros ->. apply String.eqb_refl.
Qed.

Lemma handled_iff_declared fc :
  useAltairAI_handled fc = true <->
  exists d, d ∈ Schema.conversationTools /\ name fc = Some (Schema.decl_name d).
Proof.
  unfold useAltairAI_handled. rewrite !orb_true_iff, !name_is_iff. split.
  - intros [[[H | H] | H] | H];
      [exists (nth 0 Schema.conversationTools Schema.declaration)
      |exists (nth 1 Schema.conversationTools Schema.declaration)
      |exists (nth 2 Schema.conversationTools Schema.declaration)
      |exists (nth 3 Schema.conversationTools Schema.declaration)];
      (split; [|exact H]); simpl; set_solver.
  - intros (d & Hd & ->). unfold Schema.conversationTools in Hd.
    repeat (apply elem_of_cons in Hd as [-> | Hd]); simpl; auto.
    by apply not_elem_of_nil in Hd.
Qed.

Lemma unhandled_logCall fc w :
  useAltairAI_handled fc = false ->
  useAltairAI.logCall fc w = (w, Normal tt).
Proof.
  unfold useAltairAI_handled, useAltairAI.logCall. intros H.
  repeat (apply orb_false_iff in H as [H ?]).
  repeat match goal with
         | Hn : name_is _ _ = false |- _ => rewrite Hn; clear Hn
         end.
  done.
Qed.

(** X13. The hook's [logCall] writes to the console for exactly the calls that
    name one of the conversation tools it declares and that it can read. For
    every other name it does nothing at all -- also for the chart tool
    [render_altair], which is declared to the model but has no branch in the
    hook. *)
Theorem hook_handles_its_conversation_tools fc :
  (useAltairAI_lines fc <> [] <->
   (exists d, d ∈ Schema.conversationTools /\ name fc = Some (Schema.decl_name d)) /\
   useAltairAI_readable fc = true) /\
  ((~ exists d, d ∈ Schema.conversationTools /\ name fc = Some (Schema.decl_name d)) ->
   forall w, useAltairAI.logCall fc w = (w, Normal tt)) /\
  (name fc = Some (Schema.decl_name Schema.declaration) ->
   Schema.declaration ∈ Schema.functionDeclarations /\
   forall w, useAltairAI.logCall fc w = (w, Normal tt)).
Proof.
  split; [|split].
  - rewrite <- handled_iff_declared. split.
    + intros Hl. split.
      * destruct (useAltairAI_handled fc) eqn:Hh; [done|]. exfalso. apply Hl.
        unfold useAltairAI_lines, Handler.run.
        by rewrite (unhandled_logCall fc no_effects Hh).
      * destruct (useAltairAI_readable fc) eqn:Hr; [done|]. exfalso. apply Hl.
        by apply unreadable_lines.
    + intros [Hh Hr]. by apply handled_call_logs.
  - intros Hn w. apply unhandled_logCall.
    destruct (useAltairAI_handled fc) eqn:Hh; [|done].
    exfalso. apply Hn. by apply handled_iff_declared.
  - intros Hn. split; [by left|]. intros w. apply unhandled_logCall.
    unfold useAltairAI_handled, name_is. by rewrite Hn.
Qed.

(** X13 at a chart call. *)
Lemma chart_call_unhandled_by_hook :
  Schema.declaration ∈ Schema.functionDeclarations /\
  forall w, useAltairAI.logCall (call "a" "render_altair" ∅) w = (w, Normal tt).
Proof.
  apply (proj2 (proj2 (hook_handles_its_conversation_tools
                         (call "a" "render_altair" ∅)))).
  reflexivity.
Defined.

(** ** Batches that honour the schemas, and chart calls that do not *)

(** X14. When every call of a batch matches the schema of the tool it names,
    the hook reads all of them: it never throws on such a batch and answers
    every call in it. *)
Theorem valid_batch_is_answered calls :
  calls <> [] ->
  forallb Schema.valid calls = true ->
  completes (useAltairAI.onToolCall (batch calls)) /\
  timers (Handler.run (useAltairAI.onToolCall (batch calls))).1 = armed (batch calls) /\
  responses (Handler.run (useAltairAI.onToolCall (batch calls))).1
    = successResponse <$> calls.
Proof.
  intros Hne Hv.
  assert (completes (useAltairAI.onToolCall (batch calls))) as Hok.
  { apply useAltairAI_completes_iff, forallb_forall. intros fc Hfc.
    apply valid_readable. by apply (proj1 (forallb_forall _ _) Hv). }
  pose proof (armed_when_completes _ useAltairAI_timers (batch calls) calls
                eq_refl Hne Hok) as Ht.
  split; [done|]. split; [done|].
  by apply (responses_armed (batch calls)).
Qed.

(** X14 at the design document's scenario. *)
Lemma hometown_is_valid_and_answered :
  completes (useAltairAI.onToolCall hometown) /\
  timers (Handler.run (useAltairAI.onToolCall hometown)).1 = armed hometown /\
  responses (Handler.run (useAltairAI.onToolCall hometown)).1
    = successResponse <$>
        [call "a" "log_question_start"
           {[ "question" := Js.Str "Tell me about your hometown" ]}].
Proof.
  apply (valid_batch_is_answered
           [call "a" "log_question_start"
              {[ "question" := Js.Str "Tell me about your hometown" ]}]).
  - discriminate.
  - reflexivity.
Defined.

Lemma chart_without_args_throws calls fc w :
  chart_call calls = Some fc ->
  args fc = None ->
  exists e,
    (match chart_call calls with
     | Some fc => str ← prop (args fc) "json_graph"; setJSONString str
     | None => mret tt
     end ;; if negb (length calls =? 0)%nat
            then setTimeout (respond (batch calls)) 200 else mret tt) w
    = (w, Throw e).
Proof. intros -> Ha. rewrite bind_eq. simpl. rewrite Ha. by eexists. Qed.

(** X15. In the component revisions a chart call that comes without arguments
    costs the whole batch its answer: reading [json_graph] throws after the
    logging pass and before the timer is armed, so no call of the batch is
    answered and no chart is set. *)
Theorem chart_call_without_args_unanswered calls fc :
  chart_call calls = Some fc ->
  args fc = None ->
  (exists e, (Handler.run (AltairComponent3.onToolCall (batch calls))).2 = Throw e) /\
  timers (Handler.run (AltairComponent3.onToolCall (batch calls))).1 = [] /\
  jsonString (Handler.run (AltairComponent3.onToolCall (batch calls))).1 = [] /\
  (exists e, (Handler.run (AltairComponent2.onToolCall (batch calls))).2 = Throw e) /\
  timers (Handler.run (AltairComponent2.onToolCall (batch calls))).1 = [] /\
  jsonString (Handler.run (AltairComponent2.onToolCall (batch calls))).1 = [].
Proof.
  intros Hfc Ha.
  assert (exists e, (Handler.run (AltairComponent3.onToolCall (batch calls))).2 = Throw e)
    as [e3 H3].
  { unfold Handler.run, AltairComponent3.onToolCall. simpl. rewrite bind_eq.
    destruct (forEach calls AltairComponent3.logCall no_effects) as [w [[]|e]];
      [|by exists e].
    destruct (chart_without_args_throws calls fc w Hfc Ha) as [e He].
    exists e. exact (f_equal snd He). }
  assert (exists e, (Handler.run (AltairComponent2.onToolCall (batch calls))).2 = Throw e)
    as [e2 H2].
  { unfold Handler.run, AltairComponent2.onToolCall. simpl. rewrite bind_eq.
    destruct (forEach calls AltairComponent2.logCall no_effects) as [w [[]|e]];
      [|by exists e].
    destruct (chart_without_args_throws calls fc w Hfc Ha) as [e He].
    exists e. exact (f_equal snd He). }
  pose proof (AltairComponent3_chart calls) as C3.
  pose proof (AltairComponent2_chart calls) as C2.
  simpl in C3, C2. rewrite Hfc, H3 in C3. rewrite Hfc, H2 in C2.
  repeat split; try done; try (by eexists).
  - by apply (nothing_armed_when_thrown _ AltairComponent3_timers _ e3).
  - by apply (nothing_armed_when_thrown _ AltairComponent2_timers _ e2).
Qed.

(** X15 at a batch whose chart call has no arguments, after a good call. *)
Lemma chart_without_args_costs_the_batch :
  let calls := [call "a" "log_question_end" {[ "question" := Js.Str "Why?" ]};
                {| id := Some "b"; name := Some "render_altair"; args := None |}] in
  (exists e, (Handler.run (AltairComponent3.onToolCall (batch calls))).2 = Throw e) /\
  timers (Handler.run (AltairComponent3.onToolCall (batch calls))).1 = [] /\
  jsonString (Handler.run (AltairComponent3.onToolCall (batch calls))).1 = [] /\
  (exists e, (Handler.run (AltairComponent2.onToolCall (batch calls))).2 = Throw e) /\
  timers (Handler.run (AltairComponent2.onToolCall (batch calls))).1 = [] /\
  jsonString (Handler.run (AltairComponent2.onToolCall (batch calls))).1 = [].
Proof.
  apply (chart_call_without_args_unanswered
           [call "a" "log_question_end" {[ "question" := Js.Str "Why?" ]};
            {| id := Some "b"; name := Some "render_altair"; args := None |}]
           {| id := Some "b"; name := Some "render_altair"; args := None |}).
  - reflexivity.
  - reflexivity.
Defined.

(** ** The tray between a render and its effect *)

Lemma commit_realtimeInput s :
  AudioControlTray.realtimeInput (AudioControlTray.commit s)
  = AudioControlTray.realtimeInput s.
Proof.
  unfold AudioControlTray.commit, AudioControlTray.effect, AudioControlTray.cleanup.
  simpl. by destruct (_ && _).
Qed.

Lemma commit_active s :
  TrayEffects.active (AudioControlTray.commit s) = TrayEffects.active s.
Proof.
  destruct s as [c m v d rec sent]. by destruct c, m.
Qed.

(** The tray's own step is the render followed by its effect run. *)
Lemma fused_step_is_render_then_effect s :
  (forall c,
     TrayEffects.tray (TrayEffects.flushEffects
       (TrayEffects.step (TrayEffects.settled s) (TrayEffects.Connection c)))
     = AudioControlTray.step s (AudioControlTray.Connection c)) /\
  TrayEffects.tray (TrayEffects.flushEffects
    (TrayEffects.step (TrayEffects.settled s) TrayEffects.ClickMic))
  = AudioControlTray.step s AudioControlTray.ClickMic /\
  (forall a,
     TrayEffects.tray (TrayEffects.flushEffects
       (TrayEffects.step (TrayEffects.settled s) (TrayEffects.Device a)))
     = AudioControlTray.step s (AudioControlTray.Device a)) /\
  (forall base64 v,
     TrayEffects.tray (TrayEffects.flushEffects
       (TrayEffects.step (TrayEffects.settled s) (TrayEffects.Tick base64 v)))
     = AudioControlTray.step s (AudioControlTray.Tick base64 v)).
Proof.
  repeat split; intros; simpl.
  - by destruct (Bool.eqb c (AudioControlTray.connected s)).
  - by destruct (AudioControlTray.connected s).
Qed.

Lemma flush_invariant r :
  effects_invariant r -> effects_invariant (TrayEffects.flushEffects r).
Proof.
  intros (Hl & Hr & Hp). unfold TrayEffects.flushEffects.
  destruct (TrayEffects.pendingEffect r) eqn:Hpend;
    [|by unfold effects_invariant; rewrite Hpend].
  destruct (commit_invariant (TrayEffects.tray r)) as [Hl' Hr'].
  { rewrite Hl. destruct (TrayEffects.effectSaw r); auto. }
  unfold effects_invariant. simpl. repeat split.
  - rewrite Hl'.
    change (AudioControlTray.connected (AudioControlTray.commit (TrayEffects.tray r))
            && negb (AudioControlTray.muted (AudioControlTray.commit (TrayEffects.tray r))))
      with (TrayEffects.active (AudioControlTray.commit (TrayEffects.tray r))).
    by rewrite commit_active.
  - intros Hrec. specialize (Hr' Hrec).
    change (TrayEffects.active (AudioControlTray.commit (TrayEffects.tray r)) = true)
      in Hr'.
    by rewrite commit_active in Hr'.
  - by rewrite commit_active.
Qed.

Lemma effects_step_invariant r e :
  effects_invariant r -> effects_invariant (TrayEffects.step r e).
Proof.
  intros Hr. destruct e as [c| |a|base64 v|]; simpl.
  - pose proof (flush_invariant r Hr) as (Hl & Hrec & Hp).
    destruct (Bool.eqb c _); [by repeat split|].
    unfold effects_invariant. simpl. by repeat split.
  - pose proof (flush_invariant r Hr) as (Hl & Hrec & Hp).
    destruct (AudioControlTray.connected _); [|by repeat split].
    unfold effects_invariant. simpl. by repeat split.
  - done.
  - destruct Hr as (Hl & Hrec & Hp). unfold effects_invariant, TrayEffects.active.
    simpl.
    by destruct (deliver_frame base64 v
                   (AudioRecorder.tick (AudioControlTray.audioRecorder (TrayEffects.tray r)))
                   (TrayEffects.tray r)) as (-> & -> & _ & ->).
  - by apply flush_invariant.
Qed.

Lemma effects_reachable_invariant r :
  TrayEffects.reachable r -> effects_invariant r.
Proof.
  induction 1 as [c device|r e _ IH]; [|by apply effects_step_invariant].
  destruct (mount_invariant c device) as [Hl Hr].
  unfold effects_invariant, TrayEffects.mount, TrayEffects.settled. simpl.
  repeat split; try done.
Qed.

Lemma effects_tick r base64 v :
  effects_invariant r ->
  AudioControlTray.realtimeInput
      (TrayEffects.tray (TrayEffects.step r (TrayEffects.Tick base64 v)))
    = AudioControlTray.realtimeInput (TrayEffects.tray r) ++
      (if AudioRecorder.recording (AudioControlTray.audioRecorder (TrayEffects.tray r))
       then [[{| AudioControlTray.mimeType := "audio/pcm;rate=16000";
                 AudioControlTray.chunk_data := base64 |}]]
       else []).
Proof.
  intros (Hl & Hr & _). simpl. unfold AudioRecorder.tick.
  destruct (AudioRecorder.recording _) eqn:Hrec; simpl; [|by rewrite app_nil_r].
  by rewrite Hl, (Hr eq_refl).
Qed.




(** X3. Only a capture tick hands a chunk to the client, and only while the
    recorder runs with the listeners of an effect that saw the session
    connected and the microphone unmuted; when no effect is pending, the
    session is connected and the microphone unmuted at that moment. *)
Theorem chunk_needs_attached_listener r e :
  TrayEffects.reachable r ->
  AudioControlTray.realtimeInput (TrayEffects.tray (TrayEffects.step r e))
    <> AudioControlTray.realtimeInput (TrayEffects.tray r) ->
  (exists base64 v, e = TrayEffects.Tick base64 v) /\
  AudioRecorder.recording (AudioControlTray.audioRecorder (TrayEffects.tray r)) = true /\
  TrayEffects.effectSaw r = true /\
  (TrayEffects.pendingEffect r = false ->
   AudioControlTray.connected (TrayEffects.tray r) = true /\
   AudioControlTray.muted (TrayEffects.tray r) = false).
Proof.
  intros Hreach Hne. pose proof (effects_reachable_invariant r Hreach) as Hi.
  destruct e as [c| |a|base64 v|].
  - exfalso. apply Hne. simpl. unfold TrayEffects.flushEffects.
    destruct (TrayEffects.pendingEffect r); simpl;
      destruct (Bool.eqb c _); simpl; by rewrite ?commit_realtimeInput.
  - exfalso. apply Hne. simpl. unfold TrayEffects.flushEffects.
    destruct (TrayEffects.pendingEffect r); simpl;
      destruct (AudioControlTray.connected _); simpl;
      by rewrite ?commit_realtimeInput.
  - exfalso. by apply Hne.
  - rewrite (effects_tick r base64 v Hi) in Hne.
    destruct (AudioRecorder.recording _) eqn:Hrec;
      [|exfalso; apply Hne; by rewrite app_nil_r].
    destruct Hi as (Hl & Hr & Hp). specialize (Hr Hrec).
    split; [by exists base64, v|]. split; [done|]. split; [done|].
    intros Hpend. specialize (Hp Hpend). rewrite Hr in Hp.
    unfold TrayEffects.active in Hp. symmetry in Hp.
    apply andb_true_iff in Hp as [-> Hm]. by apply negb_true_iff in Hm.
  - exfalso. apply Hne. simpl. unfold TrayEffects.flushEffects.
    destruct (TrayEffects.pendingEffect r); simpl; by rewrite ?commit_realtimeInput.
Qed.

(** X3 at the first tick of a tray mounted while connected. *)
Lemma first_chunk_needs_attached_listener :
  (exists base64 v, TrayEffects.Tick "AAAA" 0.5 = TrayEffects.Tick base64 v) /\
  AudioRecorder.recording
    (AudioControlTray.audioRecorder (TrayEffects.tray (TrayEffects.mount true true)))
    = true /\
  TrayEffects.effectSaw (TrayEffects.mount true true) = true /\
  (TrayEffects.pendingEffect (TrayEffects.mount true true) = false ->
   AudioControlTray.connected (TrayEffects.tray (TrayEffects.mount true true)) = true /\
   AudioControlTray.muted (TrayEffects.tray (TrayEffects.mount true true)) = false).
Proof.
  apply (chunk_needs_attached_listener (TrayEffects.mount true true)
           (TrayEffects.Tick "AAAA" 0.5)).
  - apply TrayEffects.reach_mount.
  - simpl. discriminate.
Defined.
